(** * pdkit: the tremor processor

    A shallow embedding of [pdkit/tremor_processor.py] and the properties of
    its pipeline: resampling, high-pass filtering, the windowed transform, the
    two band extractors and the orchestrating [process] call.

    Numbers.  Every finite float of the program is a rational, and the model
    computes with exact rationals ([Q]): rounding is idealised away, so the
    statements below are about the arithmetic the program approximates.
    One place where rounding shows is the number of points of [arange], which
    numpy computes in floating point: when the span is a whole number of
    steps the rounded quotient can exceed it, and numpy then returns one more
    point than the exact count used here.

    Language.  The file is a Python 3 script (its first line asks for
    [python3]): [/] is true division, [int] truncates toward zero, and an
    exception object has no attribute [message].

    Libraries.  numpy's indexing, slicing, broadcasting, [arange] and [argmax],
    scipy's [interp1d] and [lfilter] and the pandas calls are rational
    arithmetic and list manipulation and are modelled as documented.  The
    routines that are not (the Butterworth design, the Hann coefficients, the
    discrete Fourier transform, the complex modulus, the Welch estimate) are
    fields of a [Library] record that every stage takes as a parameter. *)

From Stdlib Require Import String Bool Arith ZArith QArith Qround Qabs List Lia Lqa.
Import ListNotations.

Local Open Scope Q_scope.

(** ** Exceptions and results *)

Inductive exn : Type :=
| ValueError
| IndexError
| AttributeError
| TypeError
| ZeroDivisionError.

Inductive result (A : Type) : Type :=
| Ok (a : A)
| Raise (e : exn).

Arguments Ok {A} a.
Arguments Raise {A} e.

Definition bind {A B : Type} (r : result A) (k : A -> result B) : result B :=
  match r with
  | Ok a => k a
  | Raise e => Raise e
  end.

Notation "x <- r ;; k" := (bind r (fun x => k))
  (at level 61, r at next level, right associativity).
Notation "' p <- r ;; k" := (bind r (fun x => let p := x in k))
  (at level 61, p pattern, r at next level, right associativity).

Lemma bind_Ok_inv {A B : Type} (r : result A) (k : A -> result B) (b : B) :
  bind r k = Ok b -> exists a, r = Ok a /\ k a = Ok b.
Proof. destruct r as [a|e]; simpl; intros H; [eauto | discriminate]. Qed.

Lemma bind_Raise_inv {A B : Type} (r : result A) (k : A -> result B) (e : exn) :
  bind r k = Raise e -> r = Raise e \/ exists a, r = Ok a /\ k a = Raise e.
Proof. destruct r as [a|e']; simpl; intros H; [right; eauto | left; congruence]. Qed.

(** ** Module constants (lines 10-16 of the source) *)

Definition SAMPLING_FREQUENCY : Q := 100.
Definition CUTOFF_FREQUENCY_HIGH : Q := 2.
Definition FILTER_ORDER : nat := 2.
Definition WINDOW : nat := 256.
Definition LOWER_FREQUENCY_TREMOR : Q := 2.
Definition UPPER_FREQUENCY_TREMOR : Q := 10.

(** ** Python and numpy primitives *)

Module Py.

(** [a < b] on floats, as a boolean. *)
Definition Qltb (a b : Q) : bool :=
  (Qnum a * QDen b <? Qnum b * QDen a)%Z.

(** [int(x)] of a float: truncation toward zero. *)
Definition int (x : Q) : Z := Z.quot (Qnum x) (QDen x).

(** The bound of a slice, brought into [0 .. n]: a negative bound counts from
    the end, and what still falls outside is clipped. *)
Definition clip (i n : Z) : Z :=
  let j := if (i <? 0)%Z then (i + n)%Z else i in
  Z.max 0 (Z.min j n).

(** [l[ll:rr]] *)
Definition slice {A : Type} (ll rr : Z) (l : list A) : list A :=
  let n := Z.of_nat (length l) in
  let s := clip ll n in
  let e := clip rr n in
  firstn (Z.to_nat (e - s)) (skipn (Z.to_nat s) l).

(** [l[0]] and [l[-1]] *)
Definition first {A : Type} (l : list A) : result A :=
  match l with
  | [] => Raise IndexError
  | x :: _ => Ok x
  end.

Definition last {A : Type} (l : list A) : result A :=
  match rev l with
  | [] => Raise IndexError
  | x :: _ => Ok x
  end.

(** The builtin [sum]: a left fold from the integer 0. *)
Definition sum (l : list Q) : Q := fold_left Qplus l 0.

(** [range(n)] *)
Definition range (n : nat) : list nat := seq 0 n.

End Py.

Module Np.

(** [np.arange(n)] as floats. *)
Definition arange_n (n : nat) : list Q := map (fun k => inject_Z (Z.of_nat k)) (seq 0 n).

(** [np.arange(start, stop, step)]: [ceil((stop - start) / step)] values,
    the i-th being [start + i * step]. *)
Definition arange (start stop step : Q) : list Q :=
  let n := Z.to_nat (Qceiling ((stop - start) / step)) in
  map (fun i => start + inject_Z (Z.of_nat i) * step) (seq 0 n).

(** [a * b] on two one-dimensional arrays: element by element, an array of
    length one being stretched to the length of the other. *)
Definition mul (a b : list Q) : result (list Q) :=
  if (length a =? length b)%nat then Ok (map (fun p => fst p * snd p) (combine a b))
  else match a, b with
       | [x], _ => Ok (map (fun y => x * y) b)
       | _, [y] => Ok (map (fun x => x * y) a)
       | _, _ => Raise ValueError
       end.

(** [a[idx]] for a list of positions (fancy indexing). *)
Fixpoint take {A : Type} (idx : list nat) (a : list A) : result (list A) :=
  match idx with
  | [] => Ok []
  | i :: rest =>
      match nth_error a i with
      | None => Raise IndexError
      | Some x => r <- take rest a ;; Ok (x :: r)
      end
  end.

(** [a[i]] for one position. *)
Definition item {A : Type} (a : list A) (i : nat) : result A :=
  match nth_error a i with
  | None => Raise IndexError
  | Some x => Ok x
  end.

(** [a[mask]] for a boolean array of the same length. *)
Fixpoint select {A : Type} (mask : list bool) (a : list A) : list A :=
  match mask, a with
  | m :: ms, x :: xs => if m then x :: select ms xs else select ms xs
  | _, _ => []
  end.

Definition masked {A : Type} (a : list A) (mask : list bool) : result (list A) :=
  if (length mask =? length a)%nat then Ok (select mask a) else Raise IndexError.

(** [(frq > lo) & (frq < hi)] *)
Definition band_mask (frq : list Q) (lo hi : Q) : list bool :=
  map (fun f => Py.Qltb lo f && Py.Qltb f hi) frq.

(** [a.argmax()]: the position of the first maximum; an empty array has none. *)
Fixpoint argmax_from (best_i : nat) (best : Q) (i : nat) (l : list Q) : nat :=
  match l with
  | [] => best_i
  | x :: r =>
      if Py.Qltb best x then argmax_from i x (S i) r
      else argmax_from best_i best (S i) r
  end.

Definition argmax (l : list Q) : result nat :=
  match l with
  | [] => Raise ValueError
  | x :: r => Ok (argmax_from 0 x 1 r)
  end.

End Np.

(** ** pandas: data frames *)

Module Pd.

(** A data frame: a time index (seconds, counted from the midnight before the
    first sample) and named columns, in order. *)
Record DataFrame : Type := mkDataFrame {
  index : list Q;
  columns : list (string * list Q)
}.

(** Every column is as long as the index: what pandas keeps of any frame. *)
Definition well_formed (df : DataFrame) : Prop :=
  Forall (fun c => length (snd c) = length (index df)) (columns df).

Fixpoint lookup {V : Type} (name : string) (cols : list (string * V)) : option V :=
  match cols with
  | [] => None
  | (n, c) :: rest => if String.eqb n name then Some c else lookup name rest
  end.

(** [df.name]: the values of a column. *)
Definition column (df : DataFrame) (name : string) : result (list Q) :=
  match lookup name (columns df) with
  | Some c => Ok c
  | None => Raise AttributeError
  end.

(** Writing a column: an existing one is replaced where it stands, a new one
    goes last. *)
Fixpoint set_column {V : Type} (name : string) (vals : V) (cols : list (string * V))
  : list (string * V) :=
  match cols with
  | [] => [(name, vals)]
  | (n, c) :: rest =>
      if String.eqb n name then (n, vals) :: rest
      else (n, c) :: set_column name vals rest
  end.

(** [df[name] = vals] *)
Definition setitem (df : DataFrame) (name : string) (vals : list Q) : result DataFrame :=
  if (length vals =? length (index df))%nat
  then Ok (mkDataFrame (index df) (set_column name vals (columns df)))
  else Raise ValueError.

(** *** The rule string [str(w) + 'S']

    pandas reads the rule as a number of seconds.  It accepts a period that
    is written without an exponent (from [0.0001] up to, not including,
    [1e16]) and is a whole number of nanoseconds, and raises ValueError for
    any other. *)
Definition rule_ok (w : Q) : bool :=
  Qle_bool (1 # 10000) w && Py.Qltb w 10000000000000000 &&
  (Zpos (Qden (Qred (w * 1000000000))) =? 1)%Z.

(** *** [resample(rule).mean()]

    The bins are [w] wide, closed on the left, and start at the multiple of
    [w] at or before the earliest index time; there is one row per bin up to
    the bin of the latest index time.  A cell is the mean of the samples of
    its bin, and is missing ([None], pandas' NaN) when the bin is empty. *)

Record Binned : Type := mkBinned {
  b_index : list Q;
  b_columns : list (string * list (option Q))
}.

Definition Qmin (a b : Q) : Q := if Py.Qltb b a then b else a.
Definition Qmax (a b : Q) : Q := if Py.Qltb a b then b else a.

Definition bin_of (edge0 w t : Q) : Z := Qfloor ((t - edge0) / w).

Definition mean (l : list Q) : option Q :=
  match l with
  | [] => None
  | _ => Some (Py.sum l / inject_Z (Z.of_nat (length l)))
  end.

Definition bin_mean (edge0 w : Q) (idx vals : list Q) (k : nat) : option Q :=
  mean (map snd (filter (fun p => (bin_of edge0 w (fst p) =? Z.of_nat k)%Z)
                        (combine idx vals))).

Definition resample_mean (df : DataFrame) (w : Q) : Binned :=
  match index df with
  | [] => mkBinned [] (map (fun c => (fst c, [])) (columns df))
  | t :: ts =>
      let lo := fold_left Qmin ts t in
      let hi := fold_left Qmax ts t in
      let edge0 := inject_Z (Qfloor (lo / w)) * w in
      let bins := seq 0 (Z.to_nat (Qfloor ((hi - edge0) / w) + 1)) in
      mkBinned (map (fun k => edge0 + inject_Z (Z.of_nat k) * w) bins)
               (map (fun c => (fst c, map (bin_mean edge0 w (index df) (snd c)) bins))
                    (columns df))
  end.

(** [df.name = vals] on the binned frame. *)
Definition binned_set (b : Binned) (name : string) (vals : list Q) : result Binned :=
  if (length vals =? length (b_index b))%nat
  then Ok (mkBinned (b_index b) (set_column name (map Some vals) (b_columns b)))
  else Raise ValueError.

(** *** [interpolate(method='linear')]

    A run of missing cells between two present ones is filled on the straight
    line between them, by position; a run at the end repeats the last present
    cell.  (A run at the start would stay missing; the first bin holds the
    earliest sample, so there is none, and the model writes 0 there.) *)

Fixpoint next_present (l : list (option Q)) : option (nat * Q) :=
  match l with
  | [] => None
  | Some v :: _ => Some (O, v)
  | None :: r =>
      match next_present r with
      | Some (d, v) => Some (S d, v)
      | None => None
      end
  end.

Fixpoint fill_linear (prev : option Q) (l : list (option Q)) : list Q :=
  match l with
  | [] => []
  | Some v :: r => v :: fill_linear (Some v) r
  | None :: r =>
      let v := match prev, next_present r with
               | Some a, Some (d, b) => a + (b - a) / inject_Z (Z.of_nat (d + 2))
               | Some a, None => a
               | None, _ => 0
               end in
      v :: fill_linear (match prev with Some _ => Some v | None => None end) r
  end.

Definition interpolate_linear (b : Binned) : DataFrame :=
  mkDataFrame (b_index b)
              (map (fun c => (fst c, fill_linear None (snd c))) (b_columns b)).

End Pd.

(** ** scipy: interpolation and filtering *)

Module Sp.

(** *** [interpolate.interp1d(x, y)], linear, with its bounds check *)

Record Interpolant : Type := mkInterpolant { knots_x : list Q; knots_y : list Q }.

Fixpoint insert_knot (p : Q * Q) (l : list (Q * Q)) : list (Q * Q) :=
  match l with
  | [] => [p]
  | q :: r => if Py.Qltb (fst q) (fst p) then q :: insert_knot p r else p :: l
  end.

Definition sort_knots (l : list (Q * Q)) : list (Q * Q) :=
  fold_right insert_knot [] l.

(** The constructor: both arrays of one length, at least two entries, and the
    knots put in increasing order of [x]. *)
Definition interp1d (x y : list Q) : result Interpolant :=
  if negb (length x =? length y)%nat then Raise ValueError
  else if (length x <? 2)%nat then Raise ValueError
  else let s := sort_knots (combine x y) in
       Ok (mkInterpolant (map fst s) (map snd s)).

Definition segment (x0 y0 x1 y1 t : Q) : Q :=
  (y1 - y0) / (x1 - x0) * (t - x0) + y0.

(** The value at [t]: on the segment that ends at the first knot at or after
    [t] (the first segment when [t] is the first knot). *)
Fixpoint eval_linear (xs ys : list Q) (t : Q) : Q :=
  match xs, ys with
  | x0 :: ((x1 :: xs2) as xs'), y0 :: ((y1 :: _) as ys') =>
      match xs2 with
      | [] => segment x0 y0 x1 y1 t
      | _ :: _ => if Qle_bool t x1 then segment x0 y0 x1 y1 t
                  else eval_linear xs' ys' t
      end
  | _, _ => 0
  end.

Definition in_bounds (f : Interpolant) (t : Q) : bool :=
  match Py.first (knots_x f), Py.last (knots_x f) with
  | Ok lo, Ok hi => Qle_bool lo t && Qle_bool t hi
  | _, _ => false
  end.

(** [f(x_new)]: a point outside the knots is an error (no extrapolation). *)
Definition call (f : Interpolant) (x_new : list Q) : result (list Q) :=
  if forallb (in_bounds f) x_new
  then Ok (map (eval_linear (knots_x f) (knots_y f)) x_new)
  else Raise ValueError.

(** *** [signal.lfilter(b, a, x)]

    The difference equation
    [a0 y(n) = b0 x(n) + b1 x(n-1) + ... - a1 y(n-1) - ...],
    from rest: one output per input. *)

Definition dot (c h : list Q) : Q :=
  Py.sum (map (fun p => fst p * snd p) (combine c h)).

Fixpoint lfilter_run (b a' : list Q) (a0 : Q) (xh yh x : list Q) : list Q :=
  match x with
  | [] => []
  | xn :: r =>
      let xh' := xn :: xh in
      let yn := (dot b xh' - dot a' yh) / a0 in
      yn :: lfilter_run b a' a0 xh' (yn :: yh) r
  end.

Definition lfilter (b a x : list Q) : result (list Q) :=
  match a with
  | [] => Raise ValueError
  | a0 :: a' =>
      if Qeq_bool a0 0 then Raise ValueError
      else Ok (lfilter_run b a' a0 [] [] x)
  end.

End Sp.

(** ** The numeric routines taken from the libraries *)

Definition complex : Type := (Q * Q)%type.

(** [z / n] for a complex [z] and a real [n]. *)
Definition cdiv (n : Q) (z : complex) : complex := (fst z / n, snd z / n).

Record Library : Type := mkLibrary {
  (** [signal.butter(order, Wn, 'high', analog=False)]: the coefficients
      [(b, a)], or the error the design raises. *)
  butter : nat -> Q -> result (list Q * list Q);
  (** The n-th coefficient of [signal.hann(M)]. *)
  hann_coeff : nat -> nat -> Q;
  (** The k-th bin of the discrete Fourier transform of an array. *)
  fft_bin : list Q -> nat -> complex;
  (** [abs] of a complex number. *)
  cabs : complex -> Q;
  (** [signal.welch(x, fs, nperseg=n)]: the frequencies and the powers. *)
  welch : list Q -> Q -> nat -> result (list Q * list Q)
}.

(** [signal.hann(M)]: [M] coefficients. *)
Definition hann (lib : Library) (M : nat) : list Q :=
  map (hann_coeff lib M) (seq 0 M).

(** [fft(x)]: as many bins as samples; no transform of an empty array. *)
Definition fft (lib : Library) (x : list Q) : result (list complex) :=
  match x with
  | [] => Raise ValueError
  | _ :: _ => Ok (map (fft_bin lib x) (seq 0 (length x)))
  end.

(** ** The spectral frame built by [fft_signal] (lines 107-111) *)

Record SpectralFrame : Type := mkSpectralFrame {
  fft_index : list Q;
  filtered_signal : list Q;
  transformed_signal : list complex;
  dt : list Q
}.

(** [pd.DataFrame(data, index=..., columns=[...])]: the three arrays must be
    as long as the index. *)
Definition frame_of (idx msa_window : list Q) (transformed : list complex) (times : list Q)
  : result SpectralFrame :=
  if ((length msa_window =? length idx) && (length transformed =? length idx)
      && (length times =? length idx))%nat
  then Ok (mkSpectralFrame idx msa_window transformed times)
  else Raise ValueError.

(** ** The processor *)

Record TremorProcessor : Type := mkTremorProcessor {
  amplitude : Q;
  frequency : Q
}.

(** [TremorProcessor.__init__] (lines 24-27) *)
Definition init : TremorProcessor := mkTremorProcessor 0 0.

(** A method call on [self]: how it ends, and the fields it leaves. *)
Definition Method (A : Type) : Type := TremorProcessor -> result A * TremorProcessor.

Definition ret {A : Type} (a : A) : Method A := fun self => (Ok a, self).

Definition lift {A : Type} (r : result A) : Method A := fun self => (r, self).

Definition mbind {A B : Type} (m : Method A) (k : A -> Method B) : Method B :=
  fun self =>
    match m self with
    | (Ok a, self') => k a self'
    | (Raise e, self') => (Raise e, self')
    end.

Definition set_amplitude (v : Q) : Method unit :=
  fun self => (Ok tt, mkTremorProcessor v (frequency self)).

Definition set_frequency (v : Q) : Method unit :=
  fun self => (Ok tt, mkTremorProcessor (amplitude self) v).

Notation "x <~ m ;; k" := (mbind m (fun x => k))
  (at level 61, m at next level, right associativity).
Notation "m ;;; k" := (mbind m (fun _ => k))
  (at level 61, right associativity).

Section Stages.

Variable lib : Library.

(** [resample_signal] (lines 54-72).  [1 / sampling_frequency] divides by
    zero for a rate of 0.  For a negative rate the resampling rule is not a
    duration, and for a positive one pandas has to accept the rule string
    (line 63); it raises ValueError when it does not, before anything is
    read from the frame. *)
Definition resample_signal (data_frame : Pd.DataFrame) (sampling_frequency : Q)
  : result Pd.DataFrame :=
  if Qeq_bool sampling_frequency 0 then Raise ZeroDivisionError
  else if Py.Qltb sampling_frequency 0 then Raise ValueError
  else if negb (Pd.rule_ok (1 / sampling_frequency)) then Raise ValueError
  else
    let df_resampled := Pd.resample_mean data_frame (1 / sampling_frequency) in
    td <- Pd.column data_frame "td" ;;
    mag_sum_acc <- Pd.column data_frame "mag_sum_acc" ;;
    f <- Sp.interp1d td mag_sum_acc ;;
    t_first <- Py.first td ;;
    t_last <- Py.last td ;;
    let new_timestamp := Np.arange t_first t_last (1 / sampling_frequency) in
    values <- Sp.call f new_timestamp ;;
    df_resampled <- Pd.binned_set df_resampled "mag_sum_acc" values ;;
    Ok (Pd.interpolate_linear df_resampled).

(** [filter_signal] (lines 74-89) *)
Definition filter_signal (data_frame : Pd.DataFrame) (cutoff_frequency : Q)
  (filter_order : nat) : result Pd.DataFrame :=
  ' (b, a) <- butter lib filter_order (2 * cutoff_frequency / SAMPLING_FREQUENCY) ;;
  mag_sum_acc <- Pd.column data_frame "mag_sum_acc" ;;
  filtered <- Sp.lfilter b a mag_sum_acc ;;
  Pd.setitem data_frame "filtered_signal" filtered.

(** [fft_signal] (lines 91-113) *)
Definition fft_signal (data_frame : Pd.DataFrame) (window : nat)
  : result SpectralFrame :=
  filtered <- Pd.column data_frame "filtered_signal" ;;
  let signal_length := inject_Z (Z.of_nat (length filtered)) in
  let w := inject_Z (Z.of_nat window) in
  let ll := Py.int (signal_length / 2 - w / 2) in
  let rr := Py.int (signal_length / 2 + w / 2) in
  let msa := Py.slice ll rr filtered in
  let hann_window := hann lib window in
  msa_window <- Np.mul msa hann_window ;;
  transformed_signal <- fft lib msa_window ;;
  td <- Pd.column data_frame "td" ;;
  frame_of (Py.slice ll rr (Pd.index data_frame)) msa_window transformed_signal
           (Py.slice ll rr td).

(** [tremor_amplitude] (lines 115-138) *)
Definition tremor_amplitude (data_frame : SpectralFrame)
  (lower_frequency upper_frequency : Q) : Method unit :=
  let n := length (filtered_signal data_frame) in
  let signal_length := inject_Z (Z.of_nat n) in
  let normalised_transformed_signal :=
    map (cdiv signal_length) (transformed_signal data_frame) in
  let k := Np.arange_n n in
  let T := signal_length / SAMPLING_FREQUENCY in
  let frq := map (fun k => k / T) k in
  let half := Py.range (Z.to_nat (Py.int (signal_length / 2))) in
  frq <~ lift (Np.take half frq) ;;
  ts <~ lift (Np.take half normalised_transformed_signal) ;;
  band <~ lift (Np.masked ts (Np.band_mask frq lower_frequency upper_frequency)) ;;
  set_amplitude (Py.sum (map (cabs lib) band)) ;;;
  peak <~ lift (Np.argmax (map (cabs lib) ts)) ;;
  f <~ lift (Np.item frq peak) ;;
  set_frequency f.

(** [tremor_amplitude_by_welch] (lines 140-158) *)
Definition tremor_amplitude_by_welch (data_frame : Pd.DataFrame) (window : nat)
  (lower_frequency upper_frequency : Q) : Method unit :=
  filtered <~ lift (Pd.column data_frame "filtered_signal") ;;
  psd <~ lift (welch lib filtered SAMPLING_FREQUENCY window) ;;
  let frq := fst psd in
  let Pxx_den := snd psd in
  peak <~ lift (Np.argmax Pxx_den) ;;
  f <~ lift (Np.item frq peak) ;;
  set_frequency f ;;;
  band <~ lift (Np.masked Pxx_den (Np.band_mask frq lower_frequency upper_frequency)) ;;
  set_amplitude (Py.sum band).

(** The body of the [try] in [process] (lines 169-176). *)
Definition process_body (data_frame : Pd.DataFrame) (method : string) : Method unit :=
  data_frame_resampled <~ lift (resample_signal data_frame SAMPLING_FREQUENCY) ;;
  data_frame_filtered <~
    lift (filter_signal data_frame_resampled CUTOFF_FREQUENCY_HIGH FILTER_ORDER) ;;
  if String.eqb method "fft" then
    data_frame_fft <~ lift (fft_signal data_frame_filtered WINDOW) ;;
    tremor_amplitude data_frame_fft LOWER_FREQUENCY_TREMOR UPPER_FREQUENCY_TREMOR
  else
    tremor_amplitude_by_welch data_frame_filtered WINDOW
      LOWER_FREQUENCY_TREMOR UPPER_FREQUENCY_TREMOR.

(** How a call of [process] ends: it returns, having written error lines to
    the log or not, or an exception leaves it. *)
Record Run : Type := mkRun {
  ended : result unit;
  self_after : TremorProcessor;
  error_log : list string
}.

(** [process] (lines 160-181).  The first handler formats [verr.message];
    a Python 3 exception has no such attribute, so evaluating the argument
    raises AttributeError inside the handler, before anything is logged, and
    that exception leaves [process].  The second handler logs and returns. *)
Definition process (self : TremorProcessor) (data_frame : Pd.DataFrame) (method : string)
  : Run :=
  match process_body data_frame method self with
  | (Ok _, self') => mkRun (Ok tt) self' []
  | (Raise ValueError, self') => mkRun (Raise AttributeError) self' []
  | (Raise _, self') =>
      mkRun (Ok tt) self' ["Unexpected error on TremorProcessor process: %s"%string]
  end.

(** One of the three stages that come before the extractors raises [e]. *)
Definition stage_raises (data_frame : Pd.DataFrame) (method : string) (e : exn) : Prop :=
  resample_signal data_frame SAMPLING_FREQUENCY = Raise e \/
  (exists r, resample_signal data_frame SAMPLING_FREQUENCY = Ok r /\
             filter_signal r CUTOFF_FREQUENCY_HIGH FILTER_ORDER = Raise e) \/
  (exists r f, resample_signal data_frame SAMPLING_FREQUENCY = Ok r /\
               filter_signal r CUTOFF_FREQUENCY_HIGH FILTER_ORDER = Ok f /\
               method = "fft"%string /\
               fft_signal f WINDOW = Raise e).

End Stages.

(** ** The band extractors in the words of the specification *)

Module Spec.

(** Bin [k] of a transform of [n] points sits at [k * sampling_rate / n]. *)
Definition bin_frequency (n k : nat) : Q :=
  inject_Z (Z.of_nat k) * SAMPLING_FREQUENCY / inject_Z (Z.of_nat n).

(** Timestamps that strictly increase. *)
Fixpoint strictly_increasing (l : list Q) : Prop :=
  match l with
  | x :: ((y :: _) as r) => x < y /\ strictly_increasing r
  | _ => True
  end.

(** A valid input signal: a [td] and a [mag_sum_acc] channel of one length,
    at least two samples, timestamps strictly increasing. *)
Definition valid_signal (df : Pd.DataFrame) (td mag : list Q) : Prop :=
  Pd.column df "td" = Ok td /\
  Pd.column df "mag_sum_acc" = Ok mag /\
  length td = length mag /\
  (2 <= length td)%nat /\
  strictly_increasing td.

(** A signal of [n] samples already uniform at rate [R]: sample [i] stands
    at [t0 + i/R] in the index and at [s0 + i/R] in the [td] channel. *)
Definition uniform_at (df : Pd.DataFrame) (R t0 s0 : Q) (n : nat) (mag : list Q) : Prop :=
  Pd.index df = map (fun i => t0 + inject_Z (Z.of_nat i) / R) (seq 0 n) /\
  Pd.column df "td" = Ok (map (fun i => s0 + inject_Z (Z.of_nat i) / R) (seq 0 n)) /\
  Pd.column df "mag_sum_acc" = Ok mag /\
  length mag = n.

(** A frequency strictly between the two bounds. *)
Definition in_band (lo hi f : Q) : bool :=
  if Qlt_le_dec lo f then (if Qlt_le_dec f hi then true else false) else false.

(** The sum of [value k] over the bins [k < bins] whose frequency lies
    strictly inside the band. *)
Definition band_sum (bins : nat) (freq value : nat -> Q) (lo hi : Q) : Q :=
  fold_right Qplus 0
    (map (fun k => if in_band lo hi (freq k) then value k else 0) (seq 0 bins)).

(** The magnitude of bin [k] of the transform [X] of [n] points, the bin
    being divided by [n]. *)
Definition magnitude (lib : Library) (n : nat) (X : list complex) (k : nat) : Q :=
  cabs lib (cdiv (inject_Z (Z.of_nat n)) (nth k X (0, 0))).

(** [m] is the first of the bins [k < bins] where [value] is largest. *)
Definition first_maximum (bins : nat) (value : nat -> Q) (m : nat) : Prop :=
  (m < bins)%nat /\
  (forall j, (j < bins)%nat -> value j <= value m) /\
  (forall j, (j < m)%nat -> value j < value m).

End Spec.

(** ** Inputs of the examples *)

Module Ex.

(** A stand-in for the numeric routines, to run the model on examples: a
    first difference as the filter design, a rectangular window, the samples
    themselves as transform bins, the 1-norm as the modulus, a two-bin power
    estimate.  It keeps what the callers see of the routines' argument
    checks: the design raises ValueError for a normalised cutoff above 1 or
    below 0 (and accepts 1 itself, as earlier releases of the library do;
    later ones reject it), and the power estimate of an empty signal is a
    pair of empty arrays.  No general statement depends on it. *)
Definition lib : Library :=
  mkLibrary (fun _ Wn => if Py.Qltb 1 Wn || Py.Qltb Wn 0 then Raise ValueError
                         else Ok ([1; -1], [1; 0]))
            (fun _ _ => 1)
            (fun x k => (nth k x 0, 0))
            (fun z => Qabs (fst z) + Qabs (snd z))
            (fun x fs _ => match x with
                           | [] => Ok ([], [])
                           | _ :: _ => Ok ([0; fs / 2], [1; 2])
                           end).

(** Three samples, 10 ms apart: already uniform at 100 Hz. *)
Definition uniform3 : Pd.DataFrame :=
  Pd.mkDataFrame [0; 1 # 100; 2 # 100]
    [("td"%string, [0; 1 # 100; 2 # 100]); ("mag_sum_acc"%string, [1; 2; 3])].

(** Two samples, 15 ms apart. *)
Definition pair15 : Pd.DataFrame :=
  Pd.mkDataFrame [0; 15 # 1000]
    [("td"%string, [0; 15 # 1000]); ("x"%string, [5; 7]);
     ("mag_sum_acc"%string, [1; 2])].


(** A frame without rows, with a [filtered_signal] channel. *)
Definition empty_filtered : Pd.DataFrame :=
  Pd.mkDataFrame []
    [("td"%string, []); ("mag_sum_acc"%string, []); ("filtered_signal"%string, [])].

(** A single sample. *)
Definition single : Pd.DataFrame :=
  Pd.mkDataFrame [0] [("td"%string, [0]); ("mag_sum_acc"%string, [1])].

(** A frame with no [td] column. *)
Definition no_td : Pd.DataFrame :=
  Pd.mkDataFrame [0; 15 # 1000] [("mag_sum_acc"%string, [1; 2])].

(** A filtered signal of four samples. *)
Definition filtered4 : Pd.DataFrame :=
  Pd.mkDataFrame [0; 1 # 100; 2 # 100; 3 # 100]
    [("td"%string, [0; 1 # 100; 2 # 100; 3 # 100]);
     ("mag_sum_acc"%string, [1; 3; 2; 5]);
     ("filtered_signal"%string, [1; 1; 1; 1])].

(** A filtered signal of 256 samples, 10 ms apart. *)
Definition filtered256 : Pd.DataFrame :=
  let times := map (fun k => inject_Z (Z.of_nat k) / 100) (seq 0 256) in
  Pd.mkDataFrame times
    [("td"%string, times);
     ("mag_sum_acc"%string, map (fun k => inject_Z (Z.of_nat (k mod 7))) (seq 0 256));
     ("filtered_signal"%string, map (fun k => inject_Z (Z.of_nat (k mod 5)) - 2) (seq 0 256))].

End Ex.

(** * Properties *)

(** ** Comparisons, sums, indexing *)

Lemma Qltb_lt (a b : Q) : Py.Qltb a b = true <-> a < b.
Proof. unfold Py.Qltb, Qlt. apply Z.ltb_lt. Qed.

Lemma Qltb_ge (a b : Q) : Py.Qltb a b = false <-> b <= a.
Proof. unfold Py.Qltb, Qle. rewrite Z.ltb_ge. reflexivity. Qed.

Lemma Qltb_comp (a a' b b' : Q) : a == a' -> b == b' -> Py.Qltb a b = Py.Qltb a' b'.
Proof.
  intros Ha Hb. destruct (Py.Qltb a' b') eqn:E.
  - apply Qltb_lt. apply Qltb_lt in E. rewrite Ha, Hb. exact E.
  - apply Qltb_ge. apply Qltb_ge in E. rewrite Ha, Hb. exact E.
Qed.

Lemma sum_fold (l : list Q) (a : Q) : fold_left Qplus l a == a + fold_right Qplus 0 l.
Proof.
  revert a. induction l as [|x l IH]; intros a; simpl.
  - ring.
  - rewrite IH. ring.
Qed.

Lemma skipn_nth_error {A : Type} (l : list A) (s : nat) (x : A) :
  nth_error l s = Some x -> skipn s l = x :: skipn (S s) l.
Proof.
  revert l. induction s as [|s IHs]; intros [|y l] E; simpl in *; try discriminate.
  - congruence.
  - apply IHs. exact E.
Qed.

Lemma take_seq {A : Type} (l : list A) (s h : nat) :
  (s + h <= length l)%nat -> Np.take (seq s h) l = Ok (firstn h (skipn s l)).
Proof.
  revert s. induction h as [|h IH]; intros s Hs; simpl.
  - reflexivity.
  - destruct (nth_error l s) as [x|] eqn:E.
    + rewrite IH by lia. simpl. rewrite (skipn_nth_error l s x E). reflexivity.
    + apply nth_error_None in E. lia.
Qed.

(** ** The first maximum *)

(** [m] is the position of the first maximum of [l]. *)
Definition first_peak (l : list Q) (m : nat) : Prop :=
  (m < length l)%nat /\
  (forall j, (j < length l)%nat -> nth j l 0 <= nth m l 0) /\
  (forall j, (j < m)%nat -> nth j l 0 < nth m l 0).

Lemma argmax_from_peak (l pre : list Q) (bi : nat) (b : Q) :
  (bi < length pre)%nat -> nth bi pre 0 = b ->
  (forall j, (j < length pre)%nat -> nth j pre 0 <= b) ->
  (forall j, (j < bi)%nat -> nth j pre 0 < b) ->
  first_peak (pre ++ l) (Np.argmax_from bi b (length pre) l).
Proof.
  revert pre bi b. induction l as [|x l IH]; intros pre bi b Hbi Hb Hle Hlt; simpl.
  - rewrite app_nil_r. unfold first_peak. subst b. auto.
  - assert (Hlen : length (pre ++ [x]) = S (length pre)) by (rewrite length_app; simpl; lia).
    replace (pre ++ x :: l) with ((pre ++ [x]) ++ l) by (rewrite <- app_assoc; reflexivity).
    destruct (Py.Qltb b x) eqn:E.
    + rewrite <- Hlen. apply IH.
      * lia.
      * rewrite app_nth2 by lia. replace (length pre - length pre)%nat with O by lia. reflexivity.
      * intros j Hj. rewrite Hlen in Hj.
        destruct (Nat.eq_dec j (length pre)) as [->|Hne].
        -- rewrite app_nth2 by lia. replace (length pre - length pre)%nat with O by lia.
           simpl. apply Qle_refl.
        -- rewrite app_nth1 by lia. apply Qltb_lt in E.
           apply Qle_trans with b; [apply Hle; lia | apply Qlt_le_weak; exact E].
      * intros j Hj. rewrite app_nth1 by lia. apply Qltb_lt in E.
        apply Qle_lt_trans with b; [apply Hle; lia | exact E].
    + rewrite <- Hlen. apply IH.
      * lia.
      * rewrite app_nth1 by lia. exact Hb.
      * intros j Hj. rewrite Hlen in Hj.
        destruct (Nat.eq_dec j (length pre)) as [->|Hne].
        -- rewrite app_nth2 by lia. replace (length pre - length pre)%nat with O by lia.
           simpl. apply Qltb_ge. exact E.
        -- rewrite app_nth1 by lia. apply Hle. lia.
      * intros j Hj. rewrite app_nth1 by lia. apply Hlt. exact Hj.
Qed.

Lemma argmax_peak (l : list Q) :
  l <> [] -> exists m, Np.argmax l = Ok m /\ first_peak l m.
Proof.
  destruct l as [|x r]; intros H; [congruence|].
  exists (Np.argmax_from 0 x 1 r). split; [reflexivity|].
  apply (argmax_from_peak r [x] 0%nat x).
  - simpl. lia.
  - reflexivity.
  - intros j Hj. simpl in Hj. assert (j = 0)%nat by lia. subst. simpl. apply Qle_refl.
  - intros j Hj. lia.
Qed.
(** ** Truncation and slices *)

Lemma int_nonneg (q : Q) : 0 <= q -> Py.int q = Qfloor q.
Proof.
  destruct q as [n d]. unfold Qle, Py.int, Qfloor. simpl. intros H.
  apply Z.quot_div_nonneg; lia.
Qed.

Lemma int_nonpos (q : Q) : q <= 0 -> Py.int q = Qceiling q.
Proof.
  destruct q as [n d]. unfold Qle, Py.int, Qceiling, Qfloor. simpl. intros H.
  replace n with (- (- n))%Z at 1 by lia.
  rewrite Z.quot_opp_l by lia. f_equal.
  apply Z.quot_div_nonneg; lia.
Qed.

Lemma half_diff (a b : Z) :
  inject_Z a / 2 - inject_Z b / 2 == inject_Z (a - b) / inject_Z 2.
Proof.
  replace (a - b)%Z with (a + - b)%Z by lia.
  rewrite inject_Z_plus, inject_Z_opp. change (inject_Z 2) with 2. field.
Qed.

Lemma half_sum (a b : Z) :
  inject_Z a / 2 + inject_Z b / 2 == inject_Z (a + b) / inject_Z 2.
Proof. rewrite inject_Z_plus. change (inject_Z 2) with 2. field. Qed.

Lemma floor_half_diff (a b : Z) :
  Qfloor (inject_Z a / 2 - inject_Z b / 2) = ((a - b) / 2)%Z.
Proof. rewrite half_diff. symmetry. apply Zdiv_Qdiv. Qed.

Lemma floor_half_sum (a b : Z) :
  Qfloor (inject_Z a / 2 + inject_Z b / 2) = ((a + b) / 2)%Z.
Proof. rewrite half_sum. symmetry. apply Zdiv_Qdiv. Qed.

Lemma slice_length {A : Type} (ll rr : Z) (l : list A) :
  length (Py.slice ll rr l) =
  Z.to_nat (Py.clip rr (Z.of_nat (length l)) - Py.clip ll (Z.of_nat (length l))).
Proof.
  unfold Py.slice. rewrite length_firstn, length_skipn. unfold Py.clip.
  destruct (ll <? 0)%Z, (rr <? 0)%Z; lia.
Qed.

Lemma slice_length_le {A : Type} (ll rr : Z) (l : list A) :
  (length (Py.slice ll rr l) <= length l)%nat.
Proof. rewrite slice_length. unfold Py.clip. destruct (ll <? 0)%Z, (rr <? 0)%Z; lia. Qed.

Lemma slice_inside {A : Type} (ll rr : Z) (l : list A) :
  (0 <= ll <= rr)%Z -> (rr <= Z.of_nat (length l))%Z ->
  Py.slice ll rr l = firstn (Z.to_nat (rr - ll)) (skipn (Z.to_nat ll) l).
Proof.
  intros H1 H2. unfold Py.slice, Py.clip.
  destruct (ll <? 0)%Z eqn:E1; [apply Z.ltb_lt in E1; lia|].
  destruct (rr <? 0)%Z eqn:E2; [apply Z.ltb_lt in E2; lia|].
  rewrite !Z.min_l, !Z.max_r by lia. reflexivity.
Qed.

Lemma nth_firstn_skipn {A : Type} (l : list A) (s k i : nat) (d : A) :
  (i < k)%nat -> nth i (firstn k (skipn s l)) d = nth (s + i) l d.
Proof.
  intros Hi. rewrite nth_firstn. 
  destruct (i <? k)%nat eqn:E; [|apply Nat.ltb_ge in E; lia].
  rewrite nth_skipn. reflexivity.
Qed.
(** ** Columns of a well-formed frame *)

Lemma lookup_In {V : Type} (name : string) (cols : list (string * V)) (c : V) :
  Pd.lookup name cols = Some c -> exists n, In (n, c) cols.
Proof.
  induction cols as [|[n v] rest IH]; simpl; intros H; [discriminate|].
  destruct (String.eqb n name).
  - injection H as ->. eauto.
  - destruct (IH H) as [n' Hn']. eauto.
Qed.

Lemma column_length (df : Pd.DataFrame) (name : string) (c : list Q) :
  Pd.well_formed df -> Pd.column df name = Ok c -> length c = length (Pd.index df).
Proof.
  unfold Pd.well_formed, Pd.column. intros Hwf H.
  destruct (Pd.lookup name (Pd.columns df)) as [c'|] eqn:E; [|discriminate].
  injection H as ->. destruct (lookup_In _ _ _ E) as [n Hn].
  rewrite Forall_forall in Hwf. exact (Hwf _ Hn).
Qed.

Lemma hann_length (lib : Library) (M : nat) : length (hann lib M) = M.
Proof. unfold hann. rewrite length_map, length_seq. reflexivity. Qed.

Lemma nth_map_in {A B : Type} (f : A -> B) (l : list A) (i : nat) (dA : A) (dB : B) :
  (i < length l)%nat -> nth i (map f l) dB = f (nth i l dA).
Proof.
  intros Hi. rewrite (nth_indep _ dB (f dA)) by (rewrite length_map; exact Hi).
  apply map_nth.
Qed.

Lemma fft_nonempty (lib : Library) (x : list Q) :
  (0 < length x)%nat -> fft lib x = Ok (map (fft_bin lib x) (seq 0 (length x))).
Proof. destruct x; simpl; intros H; [lia | reflexivity]. Qed.

(** ** [fft_signal] *)

Section FftSignal.

Variable lib : Library.
Variable df : Pd.DataFrame.
Variable window : nat.
Variables fs td : list Q.
Hypothesis Hwf : Pd.well_formed df.
Hypothesis Hfs : Pd.column df "filtered_signal" = Ok fs.
Hypothesis Htd : Pd.column df "td" = Ok td.

Let L : Z := Z.of_nat (length fs).
Let W : Z := Z.of_nat window.

Lemma fft_signal_short :
  (length fs < window)%nat -> fft_signal lib df window = Raise ValueError.
Proof.
  intros Hlt. unfold fft_signal. rewrite Hfs. simpl bind.
  set (ll := Py.int _). set (rr := Py.int _).
  assert (Hidx : length (Py.slice ll rr (Pd.index df)) = length (Py.slice ll rr fs)).
  { rewrite !slice_length. rewrite (column_length df _ fs Hwf Hfs). reflexivity. }
  pose proof (slice_length_le ll rr fs) as Hm.
  pose proof (hann_length lib window) as Hh.
  revert Hidx Hm. generalize (Py.slice ll rr fs) as msa. revert Hh.
  generalize (hann lib window) as h. intros h Hh msa Hidx Hm.
  unfold Np.mul.
  destruct (length msa =? length h)%nat eqn:E; [apply Nat.eqb_eq in E; lia|].
  destruct msa as [|x [|x' msa']].
  - destruct h as [|y [|y' h']]; reflexivity.
  - destruct h as [|y h']; [reflexivity|].
    simpl bind. rewrite Htd. simpl bind. unfold frame_of.
    rewrite Hidx. simpl length in *. rewrite length_map.
    apply Nat.eqb_neq in E.
    destruct (length h' =? 0)%nat eqn:E'; [apply Nat.eqb_eq in E'; lia|].
    simpl. rewrite E'. reflexivity.
  - destruct h as [|y [|y' h']]; try reflexivity. simpl in *. lia.
Qed.

Lemma fft_signal_excerpt :
  (0 < window <= length fs)%nat ->
  let ll := Qfloor (inject_Z L / 2 - inject_Z W / 2) in
  let rr := Qfloor (inject_Z L / 2 + inject_Z W / 2) in
  exists fr, fft_signal lib df window = Ok fr /\
    (0 <= ll)%Z /\ (rr = ll + W)%Z /\ (rr <= L)%Z /\
    length (filtered_signal fr) = window /\
    length (transformed_signal fr) = window /\
    length (dt fr) = window /\
    length (fft_index fr) = window /\
    transformed_signal fr = map (fft_bin lib (filtered_signal fr)) (seq 0 window) /\
    forall i, (i < window)%nat ->
      nth i (filtered_signal fr) 0 = nth (Z.to_nat ll + i) fs 0 * hann_coeff lib window i /\
      nth i (dt fr) 0 = nth (Z.to_nat ll + i) td 0 /\
      nth i (fft_index fr) 0 = nth (Z.to_nat ll + i) (Pd.index df) 0.
Proof.
  intros [Hpos Hle] ll rr.
  assert (Hll : ll = ((L - W) / 2)%Z) by apply floor_half_diff.
  assert (Hrr : rr = ((L + W) / 2)%Z) by apply floor_half_sum.
  assert (HLW : (0 < W <= L)%Z) by (unfold L, W; lia).
  assert (Hrr' : (rr = ll + W)%Z).
  { rewrite Hll, Hrr. replace (L + W)%Z with (L - W + W * 2)%Z by lia.
    apply Z.div_add. lia. }
  assert (Hll0 : (0 <= ll)%Z) by (rewrite Hll; apply Z.div_pos; lia).
  assert (HrrL : (rr <= L)%Z).
  { rewrite Hrr. apply Z.div_le_upper_bound; lia. }
  assert (Hint1 : Py.int (inject_Z L / 2 - inject_Z W / 2) = ll).
  { apply int_nonneg. rewrite half_diff. apply Qle_shift_div_l; [reflexivity|].
    rewrite Qmult_0_l. change 0 with (inject_Z 0). rewrite <- Zle_Qle. lia. }
  assert (Hint2 : Py.int (inject_Z L / 2 + inject_Z W / 2) = rr).
  { apply int_nonneg. rewrite half_sum. apply Qle_shift_div_l; [reflexivity|].
    rewrite Qmult_0_l. change 0 with (inject_Z 0). rewrite <- Zle_Qle. lia. }
  pose proof (column_length df _ fs Hwf Hfs) as Hlfs.
  pose proof (column_length df _ td Hwf Htd) as Hltd.
  assert (Hsl : forall (l : list Q), length l = length fs ->
            Py.slice ll rr l = firstn window (skipn (Z.to_nat ll) l)).
  { intros l Hl. rewrite slice_inside by (fold L in HrrL; lia).
    replace (Z.to_nat (rr - ll)) with window by (unfold W in Hrr'; lia). reflexivity. }
  assert (Hsl_len : forall (l : list Q), length l = length fs ->
            length (firstn window (skipn (Z.to_nat ll) l)) = window).
  { intros l Hl. rewrite length_firstn, length_skipn. unfold L, W in *. lia. }
  unfold fft_signal. rewrite Hfs. simpl bind. fold L W. rewrite Hint1, Hint2.
  rewrite !Hsl by congruence.
  unfold Np.mul. rewrite hann_length, Hsl_len by reflexivity. rewrite Nat.eqb_refl.
  simpl bind. set (mw := map _ (combine _ _)).
  assert (Hmw : length mw = window).
  { unfold mw. rewrite length_map, length_combine, hann_length, Hsl_len by reflexivity. lia. }
  rewrite fft_nonempty by lia. simpl bind. rewrite Htd. simpl bind.
  rewrite !Hsl by congruence. unfold frame_of. rewrite length_map, length_seq, Hmw, !Hsl_len by congruence.
  rewrite Nat.eqb_refl. simpl.
  eexists. split; [reflexivity|]. simpl.
  repeat split; auto; try (apply Hsl_len; congruence).
  - rewrite length_map, length_seq. reflexivity.
  - unfold mw.
    rewrite (nth_map_in _ _ _ (0, 0))
      by (rewrite length_combine, hann_length, Hsl_len by reflexivity; lia).
    rewrite combine_nth by (rewrite hann_length, Hsl_len; reflexivity).
    simpl. rewrite nth_firstn_skipn by lia. unfold hann.
    rewrite (nth_map_in _ _ _ 0%nat) by (rewrite length_seq; lia).
    rewrite seq_nth by lia. reflexivity.
  - apply nth_firstn_skipn. lia.
  - apply nth_firstn_skipn. lia.
Qed.

End FftSignal.
(** C4 (as stated, refuted).  A window of 0 samples is not longer than any
    signal, and [fft_signal] returns no frame for it: the excerpt and the
    window are empty, and the transform of an empty array is an error. *)
Lemma fft_signal_window_zero :
  Pd.well_formed Ex.filtered4 /\
  Pd.column Ex.filtered4 "filtered_signal" = Ok [1; 1; 1; 1] /\
  (0 <= 4)%nat /\
  forall lib, fft_signal lib Ex.filtered4 0 = Raise ValueError.
Proof.
  split; [repeat constructor|]. split; [reflexivity|]. split; [lia|].
  intros lib. reflexivity.
Qed.

(** C4 (amended).  For a window of at least one sample, on a well-formed
    frame with its [filtered_signal] and [td] columns: a signal shorter than
    the window makes [fft_signal] fail with ValueError (the clipped excerpt
    does not fit the window), and no frame is returned; a signal at least as
    long gives the frame of the centered excerpt, positions
    [floor(len/2 - window/2)] up to [floor(len/2 + window/2)], which are
    [window] positions inside the signal: tapered samples, their transform,
    their times and their index. *)
Theorem fft_signal_centered_excerpt
  (lib : Library) (df : Pd.DataFrame) (window : nat) (fs td : list Q) :
  Pd.well_formed df ->
  Pd.column df "filtered_signal" = Ok fs ->
  Pd.column df "td" = Ok td ->
  (0 < window)%nat ->
  ((length fs < window)%nat -> fft_signal lib df window = Raise ValueError) /\
  ((window <= length fs)%nat ->
   let ll := Qfloor (inject_Z (Z.of_nat (length fs)) / 2 - inject_Z (Z.of_nat window) / 2) in
   let rr := Qfloor (inject_Z (Z.of_nat (length fs)) / 2 + inject_Z (Z.of_nat window) / 2) in
   exists fr, fft_signal lib df window = Ok fr /\
     (0 <= ll)%Z /\ (rr = ll + Z.of_nat window)%Z /\ (rr <= Z.of_nat (length fs))%Z /\
     length (filtered_signal fr) = window /\
     length (transformed_signal fr) = window /\
     length (dt fr) = window /\
     length (fft_index fr) = window /\
     transformed_signal fr = map (fft_bin lib (filtered_signal fr)) (seq 0 window) /\
     forall i, (i < window)%nat ->
       nth i (filtered_signal fr) 0 = nth (Z.to_nat ll + i) fs 0 * hann_coeff lib window i /\
       nth i (dt fr) 0 = nth (Z.to_nat ll + i) td 0 /\
       nth i (fft_index fr) 0 = nth (Z.to_nat ll + i) (Pd.index df) 0).
Proof.
  intros Hwf Hfs Htd Hpos. split.
  - intros Hlt. exact (fft_signal_short lib df window fs td Hwf Hfs Htd Hlt).
  - intros Hle. apply (fft_signal_excerpt lib df window fs td Hwf Hfs Htd). lia.
Qed.

Lemma fft_signal_centered_excerpt_witness :
  Pd.well_formed Ex.filtered4 /\
  Pd.column Ex.filtered4 "filtered_signal" = Ok [1; 1; 1; 1] /\
  Pd.column Ex.filtered4 "td" = Ok [0; 1 # 100; 2 # 100; 3 # 100] /\
  (0 < 2)%nat /\
  exists fr, fft_signal Ex.lib Ex.filtered4 2 = Ok fr /\ length (filtered_signal fr) = 2%nat.
Proof.
  assert (Hwf : Pd.well_formed Ex.filtered4) by (repeat constructor).
  assert (Hpos : (0 < 2)%nat) by lia.
  split; [exact Hwf|]. split; [reflexivity|]. split; [reflexivity|]. split; [exact Hpos|].
  destruct (proj2 (fft_signal_centered_excerpt Ex.lib Ex.filtered4 2 _ _ Hwf eq_refl eq_refl Hpos))
    as [fr [Hfr [_ [_ [_ [Hlen _]]]]]].
  - simpl. lia.
  - exists fr. split; [exact Hfr | exact Hlen].
Defined.
(** ** Sums over a band *)

Lemma in_band_mask (lo hi f : Q) :
  Spec.in_band lo hi f = Py.Qltb lo f && Py.Qltb f hi.
Proof.
  unfold Spec.in_band.
  destruct (Qlt_le_dec lo f) as [H1|H1]; destruct (Qlt_le_dec f hi) as [H2|H2].
  - apply Qltb_lt in H1, H2. rewrite H1, H2. reflexivity.
  - apply Qltb_lt in H1. apply Qltb_ge in H2. rewrite H1, H2. reflexivity.
  - apply Qltb_ge in H1. rewrite H1. reflexivity.
  - apply Qltb_ge in H1. rewrite H1. reflexivity.
Qed.

Lemma in_band_comp (lo hi f f' : Q) : f == f' -> Spec.in_band lo hi f = Spec.in_band lo hi f'.
Proof.
  intros H. rewrite !in_band_mask.
  rewrite (Qltb_comp lo lo f f'), (Qltb_comp f f' hi hi); auto; reflexivity.
Qed.

Lemma sum_ext (f g : nat -> Q) (l : list nat) :
  (forall k, In k l -> f k == g k) ->
  fold_right Qplus 0 (map f l) == fold_right Qplus 0 (map g l).
Proof.
  induction l as [|k l IH]; intros H; simpl.
  - reflexivity.
  - rewrite (H k) by (left; reflexivity). rewrite IH; [reflexivity|].
    intros j Hj. apply H. right. exact Hj.
Qed.

Lemma select_sum {A : Type} (g : A -> Q) (d : A) (lo hi : Q) (frq : list Q) (ts : list A) :
  length frq = length ts ->
  Py.sum (map g (Np.select (Np.band_mask frq lo hi) ts)) ==
  fold_right Qplus 0
    (map (fun k => if Spec.in_band lo hi (nth k frq 0) then g (nth k ts d) else 0)
         (seq 0 (length ts))).
Proof.
  unfold Py.sum. rewrite sum_fold, Qplus_0_l.
  revert ts. induction frq as [|f frq IH]; intros [|t ts] Hlen; simpl in Hlen; try discriminate.
  - reflexivity.
  - injection Hlen as Hlen. simpl length. cbn [seq map fold_right nth].
    rewrite <- seq_shift, map_map. cbn [nth].
    rewrite <- (IH ts Hlen). cbn [Np.band_mask map Np.select].
    rewrite <- in_band_mask. fold (Np.band_mask frq lo hi).
    destruct (Spec.in_band lo hi f); simpl; ring.
Qed.

(** ** [tremor_amplitude] *)

Lemma half_bins (n : nat) :
  Z.to_nat (Py.int (inject_Z (Z.of_nat n) / 2)) = (n / 2)%nat.
Proof.
  rewrite int_nonneg.
  - change 2 with (inject_Z 2). rewrite <- Zdiv_Qdiv.
    change 2%Z with (Z.of_nat 2). rewrite <- Nat2Z.inj_div. apply Nat2Z.id.
  - apply Qle_shift_div_l; [reflexivity|]. rewrite Qmult_0_l.
    change 0 with (inject_Z 0). rewrite <- Zle_Qle. lia.
Qed.

Lemma tremor_amplitude_frame (lib : Library) (fr : SpectralFrame) (lo hi : Q)
  (self : TremorProcessor) (n : nat) :
  length (filtered_signal fr) = n -> length (transformed_signal fr) = n -> (2 <= n)%nat ->
  exists A F m,
    tremor_amplitude lib fr lo hi self = (Ok tt, mkTremorProcessor A F) /\
    A == Spec.band_sum (n / 2) (Spec.bin_frequency n)
           (Spec.magnitude lib n (transformed_signal fr)) lo hi /\
    Spec.first_maximum (n / 2) (Spec.magnitude lib n (transformed_signal fr)) m /\
    F == Spec.bin_frequency n m.
Proof.
  intros Hf Ht Hn.
  assert (Hh : (0 < n / 2 <= n)%nat).
  { split; [apply Nat.div_str_pos; lia | apply Nat.Div0.div_le_upper_bound; lia]. }
  remember (n / 2)%nat as h eqn:Eh.
  remember (transformed_signal fr) as X eqn:EX.
  remember (inject_Z (Z.of_nat n)) as N eqn:EN.
  remember (firstn h (map (fun k => k / (N / SAMPLING_FREQUENCY)) (Np.arange_n n)))
    as frq eqn:Efrq.
  remember (firstn h (map (cdiv N) X)) as ts eqn:Ets.
  assert (Hfrq_len : length frq = h).
  { rewrite Efrq. unfold Np.arange_n. rewrite length_firstn, !length_map, length_seq. lia. }
  assert (Hts_len : length ts = h).
  { rewrite Ets. rewrite length_firstn, length_map. lia. }
  assert (Hts_nth : forall j, (j < h)%nat -> nth j ts (0, 0) = cdiv N (nth j X (0, 0))).
  { intros j Hj. rewrite Ets, nth_firstn.
    destruct (j <? h)%nat eqn:E; [|apply Nat.ltb_ge in E; lia].
    apply nth_map_in. lia. }
  assert (Hmag : forall j, (j < h)%nat ->
            nth j (map (cabs lib) ts) 0 = Spec.magnitude lib n X j).
  { intros j Hj. rewrite (nth_map_in _ _ _ (0, 0)) by (unfold complex in *; lia).
    rewrite Hts_nth by lia. unfold Spec.magnitude. rewrite EN. reflexivity. }
  assert (Hfreq : forall j, (j < h)%nat -> nth j frq 0 == Spec.bin_frequency n j).
  { intros j Hj. rewrite Efrq, nth_firstn.
    destruct (j <? h)%nat eqn:E; [|apply Nat.ltb_ge in E; lia].
    rewrite (nth_map_in _ _ _ 0) by (unfold Np.arange_n; rewrite length_map, length_seq; lia).
    unfold Np.arange_n. rewrite (nth_map_in _ _ _ 0%nat) by (rewrite length_seq; lia).
    rewrite seq_nth by lia. simpl plus. unfold Spec.bin_frequency. rewrite <- EN.
    unfold SAMPLING_FREQUENCY. field.
    rewrite EN. change 0 with (inject_Z 0). rewrite inject_Z_injective. lia. }
  destruct (argmax_peak (map (cabs lib) ts)) as [m [Hm [Hm1 [Hm2 Hm3]]]].
  { destruct ts; simpl in *; [lia | discriminate]. }
  rewrite length_map, Hts_len in Hm1, Hm2.
  exists (Py.sum (map (cabs lib) (Np.select (Np.band_mask frq lo hi) ts))),
         (nth m frq 0), m.
  split; [|split; [|split]].
  - unfold tremor_amplitude, mbind, lift, set_amplitude, set_frequency.
    rewrite Hf, half_bins, <- EN, <- Eh, <- EX. unfold Py.range.
    rewrite !take_seq
      by (unfold Np.arange_n; rewrite ?length_map, ?length_seq, ?Ht; simpl; lia).
    simpl skipn. rewrite <- Ets, <- Efrq.
    unfold Np.masked. unfold Np.band_mask at 1.
    rewrite length_map, Hfrq_len, Hts_len, Nat.eqb_refl.
    rewrite Hm. unfold Np.item.
    rewrite (nth_error_nth' frq 0) by lia. reflexivity.
  - rewrite (select_sum (cabs lib) (0, 0)) by congruence.
    rewrite Hts_len. unfold Spec.band_sum. apply sum_ext.
    intros k Hk. apply in_seq in Hk.
    rewrite (in_band_comp lo hi _ _ (Hfreq k ltac:(lia))).
    destruct (Spec.in_band lo hi (Spec.bin_frequency n k)); [|reflexivity].
    rewrite Hts_nth by lia. unfold Spec.magnitude. rewrite EN. reflexivity.
  - unfold Spec.first_maximum. split; [exact Hm1|]. split.
    + intros j Hj. rewrite <- !Hmag by lia. apply Hm2. exact Hj.
    + intros j Hj. rewrite <- !Hmag by lia. apply Hm3. exact Hj.
  - apply Hfreq. exact Hm1.
Qed.
Lemma mul_length (a b mw : list Q) :
  Np.mul a b = Ok mw -> (2 <= length b)%nat -> length mw = length b.
Proof.
  unfold Np.mul. intros H Hb.
  destruct (length a =? length b)%nat eqn:E.
  - apply Nat.eqb_eq in E. injection H as <-.
    rewrite length_map, length_combine. lia.
  - destruct a as [|x [|x' a']].
    + destruct b as [|y [|y' b']]; simpl in *; try discriminate; lia.
    + injection H as <-. apply length_map.
    + destruct b as [|y [|y' b']]; simpl in *; try discriminate; lia.
Qed.

Lemma fft_length (lib : Library) (x : list Q) (tr : list complex) :
  fft lib x = Ok tr -> length tr = length x.
Proof.
  destruct x; simpl; intros H; [discriminate|].
  injection H as <-. simpl. rewrite length_map, length_seq. reflexivity.
Qed.

(** A frame built by [fft_signal] for a window of at least two samples has
    as many samples, and as many bins, as the window. *)
Lemma fft_signal_frame (lib : Library) (df : Pd.DataFrame) (window : nat) (fr : SpectralFrame) :
  fft_signal lib df window = Ok fr -> (2 <= window)%nat ->
  length (filtered_signal fr) = window /\ length (transformed_signal fr) = window.
Proof.
  unfold fft_signal. intros H Hw.
  apply bind_Ok_inv in H. destruct H as [fs [_ H]].
  apply bind_Ok_inv in H. destruct H as [mw [Hmul H]].
  apply bind_Ok_inv in H. destruct H as [tr [Hfft H]].
  apply bind_Ok_inv in H. destruct H as [td [_ H]].
  unfold frame_of in H.
  destruct (_ && _ && _)%bool; [|discriminate].
  injection H as <-. simpl.
  apply mul_length in Hmul; [|rewrite hann_length; exact Hw].
  rewrite hann_length in Hmul. apply fft_length in Hfft. split; congruence.
Qed.

(** C1 (as stated, refuted).  A window of one sample gives a frame of one
    sample; its one-sided spectrum has [int(1/2) = 0] bins, and the position
    of the maximum of an empty array is an error: [tremor_amplitude] raises
    and the frequency is not set. *)
Lemma tremor_amplitude_one_sample_frame :
  Pd.well_formed Ex.filtered4 /\
  forall lib, exists fr,
    fft_signal lib Ex.filtered4 1 = Ok fr /\
    length (filtered_signal fr) = 1%nat /\
    forall lo hi self,
      fst (tremor_amplitude lib fr lo hi self) = Raise ValueError /\
      frequency (snd (tremor_amplitude lib fr lo hi self)) = frequency self.
Proof.
  split; [repeat constructor|].
  intros lib. eexists. split; [reflexivity|]. split; [reflexivity|].
  intros lo hi self. split; reflexivity.
Qed.

(** C1 (amended).  For every frame that [fft_signal] builds for a window of
    at least two samples and every band: [tremor_amplitude] returns, having
    set the amplitude to the sum, over the one-sided bins
    [0 .. window/2 - 1] whose frequency [k * sampling_rate / window] lies
    strictly between the two bounds, of the magnitude of the bin divided by
    the window size, and the frequency to that of the first bin of largest
    magnitude among all the one-sided bins.  That frequency may lie outside
    the band: for a window of two samples it is 0 Hz whatever the signal. *)
Theorem tremor_amplitude_band_and_peak :
  (forall (lib : Library) (df : Pd.DataFrame) (window : nat) (fr : SpectralFrame)
          (lo hi : Q) (self : TremorProcessor),
     fft_signal lib df window = Ok fr -> (2 <= window)%nat ->
     exists A F m,
       tremor_amplitude lib fr lo hi self = (Ok tt, mkTremorProcessor A F) /\
       A == Spec.band_sum (window / 2) (Spec.bin_frequency window)
              (Spec.magnitude lib window (transformed_signal fr)) lo hi /\
       Spec.first_maximum (window / 2)
              (Spec.magnitude lib window (transformed_signal fr)) m /\
       F == Spec.bin_frequency window m) /\
  (forall (lib : Library) (self : TremorProcessor), exists fr,
     fft_signal lib Ex.filtered4 2 = Ok fr /\
     fst (tremor_amplitude lib fr LOWER_FREQUENCY_TREMOR UPPER_FREQUENCY_TREMOR self) = Ok tt /\
     frequency (snd (tremor_amplitude lib fr LOWER_FREQUENCY_TREMOR UPPER_FREQUENCY_TREMOR self))
       < LOWER_FREQUENCY_TREMOR).
Proof.
  split.
  - intros lib df window fr lo hi self Hfr Hw.
    destruct (fft_signal_frame lib df window fr Hfr Hw) as [Hf Ht].
    exact (tremor_amplitude_frame lib fr lo hi self window Hf Ht Hw).
  - intros lib self. eexists. split; [reflexivity|]. split; [reflexivity|].
    simpl. reflexivity.
Qed.

Lemma tremor_amplitude_band_and_peak_witness :
  (2 <= 2)%nat /\
  exists fr A F m,
    fft_signal Ex.lib Ex.filtered4 2 = Ok fr /\
    tremor_amplitude Ex.lib fr 2 10 init = (Ok tt, mkTremorProcessor A F) /\
    A == Spec.band_sum 1 (Spec.bin_frequency 2)
           (Spec.magnitude Ex.lib 2 (transformed_signal fr)) 2 10 /\
    Spec.first_maximum 1 (Spec.magnitude Ex.lib 2 (transformed_signal fr)) m /\
    F == Spec.bin_frequency 2 m.
Proof.
  assert (Hw : (2 <= 2)%nat) by lia.
  split; [exact Hw|].
  destruct (fft_signal Ex.lib Ex.filtered4 2) as [fr|e] eqn:Hfr; [|discriminate].
  destruct (proj1 tremor_amplitude_band_and_peak Ex.lib Ex.filtered4 2%nat fr 2 10 init Hfr Hw)
    as [A [F [m H]]].
  exists fr, A, F, m. split; [reflexivity | exact H].
Defined.
(** ** [tremor_amplitude_by_welch] *)

Lemma band_sum_empty (bins : nat) (freq value : nat -> Q) (lo hi : Q) :
  (forall k, (k < bins)%nat -> Spec.in_band lo hi (freq k) = false) ->
  Spec.band_sum bins freq value lo hi == 0.
Proof.
  intros H. unfold Spec.band_sum.
  rewrite (sum_ext _ (fun _ => 0)).
  - induction (seq 0 bins) as [|k l IH]; simpl; [reflexivity|]. rewrite IH. ring.
  - intros k Hk. apply in_seq in Hk. rewrite H by lia. reflexivity.
Qed.

Lemma welch_psd (lib : Library) (df : Pd.DataFrame) (window : nat) (lo hi : Q)
  (self : TremorProcessor) (fs frq Pxx : list Q) :
  Pd.column df "filtered_signal" = Ok fs ->
  welch lib fs SAMPLING_FREQUENCY window = Ok (frq, Pxx) ->
  length frq = length Pxx ->
  Pxx <> [] ->
  exists A m,
    tremor_amplitude_by_welch lib df window lo hi self
      = (Ok tt, mkTremorProcessor A (nth m frq 0)) /\
    Spec.first_maximum (length Pxx) (fun k => nth k Pxx 0) m /\
    A == Spec.band_sum (length Pxx) (fun k => nth k frq 0) (fun k => nth k Pxx 0) lo hi.
Proof.
  intros Hfs Hw Hlen Hne.
  destruct (argmax_peak Pxx Hne) as [m [Hm [Hm1 [Hm2 Hm3]]]].
  exists (Py.sum (Np.select (Np.band_mask frq lo hi) Pxx)), m.
  split; [|split].
  - unfold tremor_amplitude_by_welch, mbind, lift, set_amplitude, set_frequency.
    rewrite Hfs, Hw. simpl fst. simpl snd. rewrite Hm. unfold Np.item.
    rewrite (nth_error_nth' frq 0) by lia.
    unfold Np.masked. unfold Np.band_mask at 1. rewrite length_map, Hlen, Nat.eqb_refl.
    reflexivity.
  - unfold Spec.first_maximum. auto.
  - rewrite <- (map_id (Np.select _ _)).
    rewrite (select_sum (fun x => x) 0) by exact Hlen. reflexivity.
Qed.

(** C2 (as stated, refuted).  Not for every filtered signal: the power
    estimate of an empty signal has no bin (the library returns two empty
    arrays), the position of the maximum of an empty array is a ValueError,
    and the call raises it with both fields as they were.  The same happens
    wherever the estimate comes back empty. *)
Lemma tremor_amplitude_by_welch_empty_signal :
  Pd.column Ex.empty_filtered "filtered_signal" = Ok [] /\
  welch Ex.lib [] SAMPLING_FREQUENCY WINDOW = Ok ([], []) /\
  (forall lo hi self,
     tremor_amplitude_by_welch Ex.lib Ex.empty_filtered WINDOW lo hi self
       = (Raise ValueError, self)) /\
  (forall lib df window lo hi self fs frq,
     Pd.column df "filtered_signal" = Ok fs ->
     welch lib fs SAMPLING_FREQUENCY window = Ok (frq, []) ->
     tremor_amplitude_by_welch lib df window lo hi self = (Raise ValueError, self)).
Proof.
  split; [reflexivity|]. split; [reflexivity|]. split.
  - intros lo hi self. reflexivity.
  - intros lib df window lo hi self fs frq Hfs Hw.
    unfold tremor_amplitude_by_welch, mbind, lift. rewrite Hfs, Hw. reflexivity.
Qed.

(** C2 (amended).  For every frame with a [filtered_signal] channel and
    every band: the only routine of the library the call uses is the Welch
    estimate, of the whole channel, at the fixed sampling frequency, with
    segments of [window] samples (any two libraries that agree on that one
    estimate give the same outcome).  Whenever the estimate has one power
    per frequency and at least one bin, the call returns, having set the
    frequency to that of the first bin of largest power over the whole
    estimate, and the amplitude to the sum of the powers of the bins whose
    frequency lies strictly between the two bounds. *)
Theorem tremor_amplitude_by_welch_band_and_peak
  (lib : Library) (df : Pd.DataFrame) (window : nat) (lo hi : Q)
  (self : TremorProcessor) (fs frq Pxx : list Q) :
  Pd.column df "filtered_signal" = Ok fs ->
  welch lib fs SAMPLING_FREQUENCY window = Ok (frq, Pxx) ->
  length frq = length Pxx ->
  Pxx <> [] ->
  (forall lib',
     welch lib' fs SAMPLING_FREQUENCY window = welch lib fs SAMPLING_FREQUENCY window ->
     tremor_amplitude_by_welch lib' df window lo hi self
       = tremor_amplitude_by_welch lib df window lo hi self) /\
  exists A m,
    tremor_amplitude_by_welch lib df window lo hi self
      = (Ok tt, mkTremorProcessor A (nth m frq 0)) /\
    Spec.first_maximum (length Pxx) (fun k => nth k Pxx 0) m /\
    A == Spec.band_sum (length Pxx) (fun k => nth k frq 0) (fun k => nth k Pxx 0) lo hi.
Proof.
  intros Hfs Hw Hlen Hne. split.
  - intros lib' Hw'. unfold tremor_amplitude_by_welch, mbind, lift.
    rewrite Hfs. cbv beta iota. rewrite Hw'. reflexivity.
  - exact (welch_psd lib df window lo hi self fs frq Pxx Hfs Hw Hlen Hne).
Qed.

Lemma tremor_amplitude_by_welch_band_and_peak_witness :
  Pd.column Ex.filtered4 "filtered_signal" = Ok [1; 1; 1; 1] /\
  welch Ex.lib [1; 1; 1; 1] SAMPLING_FREQUENCY 256 = Ok ([0; 100 / 2], [1; 2]) /\
  exists A m,
    tremor_amplitude_by_welch Ex.lib Ex.filtered4 256 2 10 init
      = (Ok tt, mkTremorProcessor A (nth m [0; 100 / 2] 0)) /\
    Spec.first_maximum 2 (fun k => nth k [1; 2] 0) m /\
    A == Spec.band_sum 2 (fun k => nth k [0; 100 / 2] 0) (fun k => nth k [1; 2] 0) 2 10.
Proof.
  split; [reflexivity|]. split; [reflexivity|].
  apply (tremor_amplitude_by_welch_band_and_peak Ex.lib Ex.filtered4 256 2 10 init
           [1; 1; 1; 1] [0; 100 / 2] [1; 2]).
  - reflexivity.
  - reflexivity.
  - reflexivity.
  - discriminate.
Defined.
(** C6 (as stated, refuted).  The frame of a window of one sample has no
    one-sided bin, so no bin falls inside the band; the amplitude is the
    empty sum, and then the call fails on the position of the maximum of an
    empty array instead of returning. *)
Lemma empty_spectrum_call_fails :
  (forall k, (k < 1 / 2)%nat ->
     Spec.in_band LOWER_FREQUENCY_TREMOR UPPER_FREQUENCY_TREMOR (Spec.bin_frequency 1 k) = true ->
     False) /\
  forall lib, exists fr,
    fft_signal lib Ex.filtered4 1 = Ok fr /\
    forall self,
      fst (tremor_amplitude lib fr LOWER_FREQUENCY_TREMOR UPPER_FREQUENCY_TREMOR self)
        = Raise ValueError.
Proof.
  split.
  - intros k Hk. simpl in Hk. lia.
  - intros lib. eexists. split; [reflexivity|]. intros self. reflexivity.
Qed.

(** C6 (amended).  For both estimators, when the spectrum has at least one
    bin (a frame of at least two samples; a power estimate that is not
    empty) and no bin frequency falls strictly inside the band, the call
    returns and the amplitude it has set equals 0. *)
Theorem empty_band_amplitude_zero :
  (forall (lib : Library) (df : Pd.DataFrame) (window : nat) (fr : SpectralFrame)
          (lo hi : Q) (self : TremorProcessor),
     fft_signal lib df window = Ok fr -> (2 <= window)%nat ->
     (forall k, (k < window / 2)%nat ->
        Spec.in_band lo hi (Spec.bin_frequency window k) = false) ->
     exists A F,
       tremor_amplitude lib fr lo hi self = (Ok tt, mkTremorProcessor A F) /\ A == 0) /\
  (forall (lib : Library) (df : Pd.DataFrame) (window : nat) (lo hi : Q)
          (self : TremorProcessor) (fs frq Pxx : list Q),
     Pd.column df "filtered_signal" = Ok fs ->
     welch lib fs SAMPLING_FREQUENCY window = Ok (frq, Pxx) ->
     length frq = length Pxx ->
     Pxx <> [] ->
     (forall k, (k < length Pxx)%nat -> Spec.in_band lo hi (nth k frq 0) = false) ->
     exists A F,
       tremor_amplitude_by_welch lib df window lo hi self
         = (Ok tt, mkTremorProcessor A F) /\ A == 0).
Proof.
  split.
  - intros lib df window fr lo hi self Hfr Hw Hband.
    destruct (fft_signal_frame lib df window fr Hfr Hw) as [Hf Ht].
    destruct (tremor_amplitude_frame lib fr lo hi self window Hf Ht Hw)
      as [A [F [m [Hrun [HA _]]]]].
    exists A, F. split; [exact Hrun|].
    rewrite HA. apply band_sum_empty. exact Hband.
  - intros lib df window lo hi self fs frq Pxx Hfs Hw Hlen Hne Hband.
    destruct (welch_psd lib df window lo hi self fs frq Pxx Hfs Hw Hlen Hne)
      as [A [m [Hrun [_ HA]]]].
    exists A, (nth m frq 0). split; [exact Hrun|].
    rewrite HA. apply band_sum_empty. exact Hband.
Qed.

Lemma empty_band_amplitude_zero_witness :
  (exists fr A F,
     fft_signal Ex.lib Ex.filtered4 2 = Ok fr /\
     tremor_amplitude Ex.lib fr 2 10 init = (Ok tt, mkTremorProcessor A F) /\ A == 0) /\
  (exists A F,
     tremor_amplitude_by_welch Ex.lib Ex.filtered4 256 2 10 init
       = (Ok tt, mkTremorProcessor A F) /\ A == 0).
Proof.
  split.
  - destruct (fft_signal Ex.lib Ex.filtered4 2) as [fr|e] eqn:Hfr; [|discriminate].
    destruct (proj1 empty_band_amplitude_zero Ex.lib Ex.filtered4 2%nat fr 2 10 init Hfr)
      as [A [F H]].
    + lia.
    + intros k Hk. change (2 / 2)%nat with 1%nat in Hk.
      assert (k = 0)%nat by lia. subst k. reflexivity.
    + exists fr, A, F. split; [reflexivity | exact H].
  - apply (proj2 empty_band_amplitude_zero Ex.lib Ex.filtered4 256%nat 2 10 init
             [1; 1; 1; 1] [0; 100 / 2] [1; 2]).
    + reflexivity.
    + reflexivity.
    + reflexivity.
    + discriminate.
    + intros k Hk. simpl in Hk.
      destruct k as [|[|k]]; [reflexivity | reflexivity | lia].
Defined.
(** ** Writing a column *)

Lemma lookup_set_column_same {V : Type} (name : string) (v : V) (cols : list (string * V)) :
  Pd.lookup name (Pd.set_column name v cols) = Some v.
Proof.
  induction cols as [|[n c] rest IH]; simpl.
  - rewrite String.eqb_refl. reflexivity.
  - destruct (String.eqb n name) eqn:E; simpl; rewrite E; [reflexivity | exact IH].
Qed.

Lemma lookup_set_column_other {V : Type} (name other : string) (v : V)
  (cols : list (string * V)) :
  other <> name ->
  Pd.lookup other (Pd.set_column name v cols) = Pd.lookup other cols.
Proof.
  intros Hne. induction cols as [|[n c] rest IH]; simpl.
  - destruct (String.eqb name other) eqn:E; [|reflexivity].
    apply String.eqb_eq in E. congruence.
  - destruct (String.eqb n name) eqn:E; simpl.
    + apply String.eqb_eq in E. subst n.
      destruct (String.eqb name other) eqn:E'; [|reflexivity].
      apply String.eqb_eq in E'. congruence.
    + rewrite IH. reflexivity.
Qed.

Lemma set_column_absent {V : Type} (name : string) (v : V) (cols : list (string * V)) :
  Pd.lookup name cols = None -> Pd.set_column name v cols = cols ++ [(name, v)].
Proof.
  induction cols as [|[n c] rest IH]; simpl; intros H; [reflexivity|].
  destruct (String.eqb n name); [discriminate|]. rewrite IH by exact H. reflexivity.
Qed.

Lemma set_column_present {V : Type} (name : string) (v : V) (cols : list (string * V)) :
  Pd.lookup name cols <> None ->
  map fst (Pd.set_column name v cols) = map fst cols.
Proof.
  induction cols as [|[n c] rest IH]; simpl; intros H; [congruence|].
  destruct (String.eqb n name); simpl; [reflexivity|]. rewrite IH by exact H. reflexivity.
Qed.

Lemma set_column_lengths (name : string) (v : list Q) (cols : list (string * list Q))
  (k : nat) :
  Forall (fun c => length (snd c) = k) cols -> length v = k ->
  Forall (fun c => length (snd c) = k) (Pd.set_column name v cols).
Proof.
  intros Hall Hv. induction Hall as [|[n c] rest Hc Hrest IH]; simpl.
  - constructor; [exact Hv | constructor].
  - destruct (String.eqb n name); constructor; auto.
Qed.

(** ** [lfilter] gives one output per input *)

Lemma lfilter_run_length (b a' : list Q) (a0 : Q) (x xh yh : list Q) :
  length (Sp.lfilter_run b a' a0 xh yh x) = length x.
Proof.
  revert xh yh. induction x as [|xn r IH]; intros xh yh; simpl; [reflexivity|].
  rewrite IH. reflexivity.
Qed.

Lemma lfilter_ok (b a' : list Q) (a0 : Q) (x : list Q) :
  ~ a0 == 0 -> Sp.lfilter b (a0 :: a') x = Ok (Sp.lfilter_run b a' a0 [] [] x).
Proof.
  intros H. unfold Sp.lfilter.
  destruct (Qeq_bool a0 0) eqn:E; [|reflexivity].
  apply Qeq_bool_eq in E. contradiction.
Qed.

(** ** [filter_signal] *)

Lemma filter_signal_run (lib : Library) (df : Pd.DataFrame) (cutoff : Q) (order : nat)
  (mag b a' : list Q) (a0 : Q) :
  Pd.well_formed df ->
  Pd.column df "mag_sum_acc" = Ok mag ->
  butter lib order (2 * cutoff / SAMPLING_FREQUENCY) = Ok (b, a0 :: a') ->
  ~ a0 == 0 ->
  filter_signal lib df cutoff order =
  Ok (Pd.mkDataFrame (Pd.index df)
        (Pd.set_column "filtered_signal" (Sp.lfilter_run b a' a0 [] [] mag) (Pd.columns df))).
Proof.
  intros Hwf Hmag Hb Ha. unfold filter_signal. rewrite Hb.
  cbv beta iota zeta delta [bind]. rewrite Hmag, lfilter_ok by exact Ha.
  unfold Pd.setitem. rewrite lfilter_run_length, (column_length df _ mag Hwf Hmag).
  rewrite Nat.eqb_refl. reflexivity.
Qed.

(** C9 (as stated, refuted).  On a frame that already has a
    [filtered_signal] channel the call appends nothing: whenever it returns,
    the frame has the same three channels, and the old values of
    [filtered_signal] have been replaced. *)
Lemma filter_signal_replaces_channel :
  Pd.column Ex.filtered4 "filtered_signal" = Ok [1; 1; 1; 1] /\
  (forall lib cutoff order df',
     filter_signal lib Ex.filtered4 cutoff order = Ok df' ->
     map fst (Pd.columns df') = map fst (Pd.columns Ex.filtered4)) /\
  exists df' fs,
    filter_signal Ex.lib Ex.filtered4 CUTOFF_FREQUENCY_HIGH FILTER_ORDER = Ok df' /\
    length (Pd.columns df') = 3%nat /\
    Pd.column df' "filtered_signal" = Ok fs /\
    ~ Forall2 Qeq fs [1; 1; 1; 1].
Proof.
  split; [reflexivity|]. split.
  - intros lib cutoff order df' H. unfold filter_signal in H.
    apply bind_Ok_inv in H. destruct H as [[b a] [_ H]].
    apply bind_Ok_inv in H. destruct H as [mag [_ H]].
    apply bind_Ok_inv in H. destruct H as [fs [_ H]].
    unfold Pd.setitem in H. destruct (_ =? _)%nat; [|discriminate].
    injection H as <-. reflexivity.
  - eexists. eexists. split; [reflexivity|]. split; [reflexivity|]. split; [reflexivity|].
    intros H. inversion H as [|x y l l' Hxy Hrest]; subst.
    inversion Hrest as [|x2 y2 l2 l2' Hxy2 _]; subst.
    revert Hxy2. vm_compute. discriminate.
Qed.

(** C9 (amended).  For every well-formed frame with a [mag_sum_acc] channel
    on which the filter design returns coefficients with a non-zero leading
    denominator, [filter_signal] returns the frame with a [filtered_signal]
    channel of the length of the magnitude channel, the same index, and
    every other channel (the magnitude channel among them) as it was; the
    new channel goes last when the frame had none of that name, and takes
    the place of the old one otherwise. *)
Theorem filter_signal_frame_effect
  (lib : Library) (df : Pd.DataFrame) (cutoff : Q) (order : nat)
  (mag b a' : list Q) (a0 : Q) :
  Pd.well_formed df ->
  Pd.column df "mag_sum_acc" = Ok mag ->
  butter lib order (2 * cutoff / SAMPLING_FREQUENCY) = Ok (b, a0 :: a') ->
  ~ a0 == 0 ->
  exists df' fs,
    filter_signal lib df cutoff order = Ok df' /\
    Pd.column df' "filtered_signal" = Ok fs /\
    length fs = length mag /\
    Pd.index df' = Pd.index df /\
    Pd.well_formed df' /\
    (forall name, name <> "filtered_signal"%string ->
       Pd.lookup name (Pd.columns df') = Pd.lookup name (Pd.columns df)) /\
    Pd.column df' "mag_sum_acc" = Ok mag /\
    (Pd.lookup "filtered_signal" (Pd.columns df) = None ->
       Pd.columns df' = Pd.columns df ++ [("filtered_signal"%string, fs)]) /\
    (Pd.lookup "filtered_signal" (Pd.columns df) <> None ->
       map fst (Pd.columns df') = map fst (Pd.columns df)).
Proof.
  intros Hwf Hmag Hb Ha.
  rewrite (filter_signal_run lib df cutoff order mag b a' a0 Hwf Hmag Hb Ha).
  eexists. eexists. split; [reflexivity|]. simpl.
  assert (Hother : forall name, name <> "filtered_signal"%string ->
            Pd.lookup name (Pd.set_column "filtered_signal"
                              (Sp.lfilter_run b a' a0 [] [] mag) (Pd.columns df))
            = Pd.lookup name (Pd.columns df)).
  { intros name Hne. apply lookup_set_column_other. exact Hne. }
  split; [|split; [|split; [|split; [|split; [|split; [|split]]]]]].
  - unfold Pd.column. simpl. rewrite lookup_set_column_same. reflexivity.
  - apply lfilter_run_length.
  - reflexivity.
  - unfold Pd.well_formed in *. simpl. apply set_column_lengths; [exact Hwf|].
    rewrite lfilter_run_length. exact (column_length df _ mag Hwf Hmag).
  - exact Hother.
  - unfold Pd.column in *. simpl. rewrite Hother by discriminate. exact Hmag.
  - intros Hnone. apply set_column_absent. exact Hnone.
  - intros Hsome. apply set_column_present. exact Hsome.
Qed.

Lemma filter_signal_frame_effect_witness :
  Pd.well_formed Ex.pair15 /\
  Pd.column Ex.pair15 "mag_sum_acc" = Ok [1; 2] /\
  ~ 1 == 0 /\
  exists df' fs,
    filter_signal Ex.lib Ex.pair15 CUTOFF_FREQUENCY_HIGH FILTER_ORDER = Ok df' /\
    Pd.column df' "filtered_signal" = Ok fs /\
    length fs = 2%nat /\
    Pd.columns df' = Pd.columns Ex.pair15 ++ [("filtered_signal"%string, fs)].
Proof.
  assert (Hwf : Pd.well_formed Ex.pair15) by (repeat constructor).
  assert (Ha : ~ 1 == 0) by discriminate.
  split; [exact Hwf|]. split; [reflexivity|]. split; [exact Ha|].
  destruct (filter_signal_frame_effect Ex.lib Ex.pair15 CUTOFF_FREQUENCY_HIGH FILTER_ORDER
              [1; 2] [1; -1] [0] 1 Hwf eq_refl eq_refl Ha)
    as [df' [fs [H1 [H2 [H3 [_ [_ [_ [_ [H4 _]]]]]]]]]].
  exists df', fs. split; [exact H1|]. split; [exact H2|]. split; [exact H3|].
  apply H4. reflexivity.
Defined.
(** C5 (as stated, refuted).  [filter_signal] has no check of its own: what
    it raises for a cutoff is what the design routine raises for the
    normalised cutoff.  At exactly half the sampling rate that is 1, which a
    design routine can accept (the stand-in of the examples does, as earlier
    releases of the library do; later ones reject it): the call raises
    nothing and the coefficients are applied. *)
Lemma filter_signal_at_nyquist :
  SAMPLING_FREQUENCY / 2 <= 50 /\
  2 * 50 / SAMPLING_FREQUENCY == 1 /\
  butter Ex.lib FILTER_ORDER (2 * 50 / SAMPLING_FREQUENCY) = Ok ([1; -1], [1; 0]) /\
  exists df',
    filter_signal Ex.lib Ex.pair15 50 FILTER_ORDER = Ok df' /\
    Pd.column df' "filtered_signal" = Ok (Sp.lfilter_run [1; -1] [0] 1 [] [] [1; 2]).
Proof.
  split; [discriminate|]. split; [reflexivity|]. split; [reflexivity|].
  eexists. split; reflexivity.
Qed.

(** C5 (amended).  Let the design routine raise ValueError for a normalised
    cutoff above 1, as the library's does.  Then for every cutoff above half
    the sampling rate [filter_signal] raises ValueError, from the design
    call, which comes first: the magnitude channel is not read and no filter
    is applied, whatever the frame.  The check is the routine's, not one of
    [filter_signal]: for a cutoff of half the sampling rate or more the call
    raises exactly what the routine raises, and coefficients that the
    routine returns, which it can only at exactly half the sampling rate,
    are applied. *)
Theorem filter_signal_above_nyquist
  (lib : Library) (df : Pd.DataFrame) (cutoff : Q) (order : nat) :
  (forall n Wn, 1 < Wn -> butter lib n Wn = Raise ValueError) ->
  SAMPLING_FREQUENCY / 2 <= cutoff ->
  1 <= 2 * cutoff / SAMPLING_FREQUENCY /\
  (SAMPLING_FREQUENCY / 2 < cutoff ->
   filter_signal lib df cutoff order = Raise ValueError) /\
  (forall e, butter lib order (2 * cutoff / SAMPLING_FREQUENCY) = Raise e ->
     filter_signal lib df cutoff order = Raise e) /\
  (forall mag b a0 a',
     Pd.well_formed df ->
     Pd.column df "mag_sum_acc" = Ok mag ->
     butter lib order (2 * cutoff / SAMPLING_FREQUENCY) = Ok (b, a0 :: a') ->
     ~ a0 == 0 ->
     cutoff == SAMPLING_FREQUENCY / 2 /\
     exists df',
       filter_signal lib df cutoff order = Ok df' /\
       Pd.column df' "filtered_signal" = Ok (Sp.lfilter_run b a' a0 [] [] mag)).
Proof.
  intros Hlib Hc.
  assert (H50 : 50 <= cutoff)
    by (unfold SAMPLING_FREQUENCY in Hc; eapply Qle_trans; [|exact Hc]; discriminate).
  assert (Hraise : forall e, butter lib order (2 * cutoff / SAMPLING_FREQUENCY) = Raise e ->
                     filter_signal lib df cutoff order = Raise e).
  { intros e He. unfold filter_signal. rewrite He. reflexivity. }
  assert (Hwn : SAMPLING_FREQUENCY / 2 < cutoff -> 1 < 2 * cutoff / SAMPLING_FREQUENCY).
  { intros Hlt. unfold SAMPLING_FREQUENCY in *.
    assert (H50' : 50 < cutoff) by (eapply Qle_lt_trans; [|exact Hlt]; discriminate).
    apply Qlt_shift_div_l; [reflexivity|]. lra. }
  split; [|split; [|split]].
  - unfold SAMPLING_FREQUENCY. apply Qle_shift_div_l; [reflexivity|]. lra.
  - intros Hlt. apply Hraise. apply Hlib. exact (Hwn Hlt).
  - exact Hraise.
  - intros mag b a0 a' Hwf Hmag Hb Ha. split.
    + destruct (Qlt_le_dec (SAMPLING_FREQUENCY / 2) cutoff) as [Hlt|Hle].
      * rewrite (Hlib order _ (Hwn Hlt)) in Hb. discriminate.
      * apply Qle_antisym; assumption.
    + rewrite (filter_signal_run lib df cutoff order mag b a' a0 Hwf Hmag Hb Ha).
      eexists. split; [reflexivity|].
      unfold Pd.column. simpl. rewrite lookup_set_column_same. reflexivity.
Qed.

Lemma filter_signal_above_nyquist_witness :
  (forall n Wn, 1 < Wn -> butter Ex.lib n Wn = Raise ValueError) /\
  SAMPLING_FREQUENCY / 2 <= 60 /\
  SAMPLING_FREQUENCY / 2 < 60 /\
  filter_signal Ex.lib Ex.pair15 60 FILTER_ORDER = Raise ValueError /\
  filter_signal Ex.lib Ex.no_td 60 FILTER_ORDER = Raise ValueError.
Proof.
  assert (Hlib : forall n Wn, 1 < Wn -> butter Ex.lib n Wn = Raise ValueError).
  { intros n Wn H. simpl. apply Qltb_lt in H. rewrite H. reflexivity. }
  assert (Hc : SAMPLING_FREQUENCY / 2 <= 60) by discriminate.
  assert (Hlt : SAMPLING_FREQUENCY / 2 < 60) by reflexivity.
  split; [exact Hlib|]. split; [exact Hc|]. split; [exact Hlt|]. split.
  - exact (proj1 (proj2 (filter_signal_above_nyquist Ex.lib Ex.pair15 60 FILTER_ORDER
                           Hlib Hc)) Hlt).
  - reflexivity.
Defined.
(** ** [process] *)

(** A failure of one of the first three stages ends the body at once, with
    the fields as they were. *)
Lemma stage_raises_body (lib : Library) (df : Pd.DataFrame) (method : string) (e : exn)
  (self : TremorProcessor) :
  stage_raises lib df method e -> process_body lib df method self = (Raise e, self).
Proof.
  unfold stage_raises, process_body, mbind, lift.
  intros [H | [[r [Hr H]] | [r [f [Hr [Hf [Hm H]]]]]]].
  - rewrite H. reflexivity.
  - rewrite Hr, H. reflexivity.
  - rewrite Hr, Hf, Hm. simpl. rewrite H. reflexivity.
Qed.

Lemma process_other_error (lib : Library) (self : TremorProcessor) (df : Pd.DataFrame)
  (method : string) (e : exn) :
  fst (process_body lib df method self) = Raise e -> e <> ValueError ->
  process lib self df method =
  mkRun (Ok tt) (snd (process_body lib df method self))
        ["Unexpected error on TremorProcessor process: %s"%string].
Proof.
  unfold process. destruct (process_body lib df method self) as [[u|e'] s]; simpl.
  - discriminate.
  - intros H Hne. injection H as ->. destruct e; congruence.
Qed.

Lemma process_value_error (lib : Library) (self : TremorProcessor) (df : Pd.DataFrame)
  (method : string) :
  fst (process_body lib df method self) = Raise ValueError ->
  process lib self df method =
  mkRun (Raise AttributeError) (snd (process_body lib df method self)) [].
Proof.
  unfold process. destruct (process_body lib df method self) as [[u|e'] s]; simpl.
  - discriminate.
  - intros H. injection H as ->. reflexivity.
Qed.

(** C3 (as stated, refuted).  On a frame without a [td] channel the first
    stage fails with AttributeError; [process] catches it, writes one line
    to the error log and returns normally, the fields as they were. *)
Lemma process_swallows_failure :
  resample_signal Ex.no_td SAMPLING_FREQUENCY = Raise AttributeError /\
  forall lib self method,
    process lib self Ex.no_td method =
    mkRun (Ok tt) self ["Unexpected error on TremorProcessor process: %s"%string].
Proof. split; [reflexivity|]. intros lib self method. reflexivity. Qed.

(** C3 (amended).  A failure other than a ValueError is not surfaced: the
    catch-all handler catches it and writes one line to the error log, and
    [process] returns normally with the fields the failing body left; when
    the failure is that of the resampling, filtering or windowed-transform
    stage, these are the values from before the call. *)
Theorem process_catches_stage_failure
  (lib : Library) (self : TremorProcessor) (df : Pd.DataFrame) (method : string) (e : exn) :
  fst (process_body lib df method self) = Raise e ->
  e <> ValueError ->
  ended (process lib self df method) = Ok tt /\
  error_log (process lib self df method)
    = ["Unexpected error on TremorProcessor process: %s"%string] /\
  self_after (process lib self df method) = snd (process_body lib df method self) /\
  (stage_raises lib df method e -> self_after (process lib self df method) = self).
Proof.
  intros H Hne. rewrite (process_other_error lib self df method e H Hne). simpl.
  split; [reflexivity|]. split; [reflexivity|]. split; [reflexivity|].
  intros Hs. rewrite (stage_raises_body lib df method e self Hs). reflexivity.
Qed.

Lemma process_catches_stage_failure_witness :
  fst (process_body Ex.lib Ex.no_td "fft" init) = Raise AttributeError /\
  stage_raises Ex.lib Ex.no_td "fft" AttributeError /\
  ended (process Ex.lib init Ex.no_td "fft") = Ok tt /\
  error_log (process Ex.lib init Ex.no_td "fft")
    = ["Unexpected error on TremorProcessor process: %s"%string] /\
  self_after (process Ex.lib init Ex.no_td "fft") = init.
Proof.
  assert (H : fst (process_body Ex.lib Ex.no_td "fft" init) = Raise AttributeError)
    by reflexivity.
  assert (Hs : stage_raises Ex.lib Ex.no_td "fft" AttributeError) by (left; reflexivity).
  assert (Hne : AttributeError <> ValueError) by discriminate.
  split; [exact H|]. split; [exact Hs|].
  destruct (process_catches_stage_failure Ex.lib init Ex.no_td "fft" AttributeError H Hne)
    as [H1 [H2 [_ H3]]].
  split; [exact H1|]. split; [exact H2 | exact (H3 Hs)].
Defined.

(** C10 (the code at the failing inputs).  A frame of one sample makes the
    first stage fail with ValueError, and a frame of two samples makes the
    windowed transform fail with ValueError (2 < 256).  The handler for
    ValueError formats [verr.message], which does not exist, so [process]
    does not return: AttributeError leaves it.  The fields are as they were.
    The same holds for every ValueError of one of the three stages; any
    other exception of theirs is caught and logged, and [process] returns
    with the fields as they were. *)
Theorem process_value_error_escapes :
  (resample_signal Ex.single SAMPLING_FREQUENCY = Raise ValueError /\
   forall lib self method,
     process lib self Ex.single method = mkRun (Raise AttributeError) self []) /\
  (exists r f,
     resample_signal Ex.pair15 SAMPLING_FREQUENCY = Ok r /\
     filter_signal Ex.lib r CUTOFF_FREQUENCY_HIGH FILTER_ORDER = Ok f /\
     fft_signal Ex.lib f WINDOW = Raise ValueError /\
     forall self, process Ex.lib self Ex.pair15 "fft" = mkRun (Raise AttributeError) self []) /\
  (forall lib self df method,
     stage_raises lib df method ValueError ->
     process lib self df method = mkRun (Raise AttributeError) self []) /\
  (forall lib self df method e,
     stage_raises lib df method e -> e <> ValueError ->
     process lib self df method =
     mkRun (Ok tt) self ["Unexpected error on TremorProcessor process: %s"%string]).
Proof.
  split; [|split; [|split]].
  - split; [reflexivity|]. intros lib self method. reflexivity.
  - eexists. eexists. split; [reflexivity|]. split; [reflexivity|].
    split; [reflexivity|]. intros self. reflexivity.
  - intros lib self df method H.
    pose proof (stage_raises_body lib df method ValueError self H) as Hb.
    rewrite process_value_error by (rewrite Hb; reflexivity).
    rewrite Hb. reflexivity.
  - intros lib self df method e H Hne.
    pose proof (stage_raises_body lib df method e self H) as Hb.
    rewrite (process_other_error lib self df method e) by (rewrite ?Hb; auto).
    rewrite Hb. reflexivity.
Qed.
(** ** The uniform grid *)

Lemma nth_error_map_seq {A : Type} (f : nat -> A) (n i : nat) (a : A) :
  nth_error (map f (seq 0 n)) i = Some a -> (i < n)%nat /\ a = f i.
Proof.
  intros H. destruct (lt_dec i n) as [Hi|Hi].
  - split; [exact Hi|].
    rewrite (nth_error_nth' _ (f 0%nat)) in H by (rewrite length_map, length_seq; exact Hi).
    injection H as <-. rewrite (nth_map_in _ _ _ 0%nat) by (rewrite length_seq; exact Hi).
    rewrite seq_nth by exact Hi. reflexivity.
  - assert (Hnone : nth_error (map f (seq 0 n)) i = None).
    { apply nth_error_None. rewrite length_map, length_seq. lia. }
    congruence.
Qed.


Lemma arange_range (start stop step g : Q) :
  0 < step -> In g (Np.arange start stop step) -> start <= g /\ g < stop.
Proof.
  unfold Np.arange. intros Hstep Hin.
  apply in_map_iff in Hin. destruct Hin as [i [<- Hi]]. apply in_seq in Hi.
  set (x := (stop - start) / step) in *.
  assert (Hi0 : 0 <= inject_Z (Z.of_nat i)).
  { change 0 with (inject_Z 0). rewrite <- Zle_Qle. lia. }
  assert (Hix : inject_Z (Z.of_nat i) < x).
  { apply Qle_lt_trans with (inject_Z (Qceiling x - 1)).
    - rewrite <- Zle_Qle. lia.
    - apply Qceiling_lt. }
  assert (Hx : x * step == stop - start) by (unfold x; field; lra).
  split.
  - assert (0 <= inject_Z (Z.of_nat i) * step) by (apply Qmult_le_0_compat; lra). lra.
  - assert (inject_Z (Z.of_nat i) * step < x * step) by (apply Qmult_lt_compat_r; lra). lra.
Qed.

(** ** Interpolation on sorted knots *)

Lemma insert_knot_head (p : Q * Q) (l : list (Q * Q)) :
  match l with
  | [] => True
  | q :: _ => fst p < fst q
  end ->
  Sp.insert_knot p l = p :: l.
Proof.
  destruct l as [|q r]; simpl; intros H; [reflexivity|].
  destruct (Py.Qltb (fst q) (fst p)) eqn:E; [|reflexivity].
  apply Qltb_lt in E. lra.
Qed.

Lemma sort_knots_sorted (l : list (Q * Q)) :
  Spec.strictly_increasing (map fst l) -> Sp.sort_knots l = l.
Proof.
  unfold Sp.sort_knots. induction l as [|p l IH]; simpl; intros H; [reflexivity|].
  destruct l as [|q r].
  - reflexivity.
  - simpl in H. destruct H as [Hpq Hrest].
    rewrite IH by exact Hrest. apply insert_knot_head. exact Hpq.
Qed.

Lemma map_fst_combine {A B : Type} (a : list A) (b : list B) :
  length a = length b -> map fst (combine a b) = a.
Proof.
  revert b. induction a as [|x a IH]; intros [|y b] H; simpl in *; try discriminate.
  - reflexivity.
  - rewrite IH by lia. reflexivity.
Qed.

Lemma map_snd_combine {A B : Type} (a : list A) (b : list B) :
  length a = length b -> map snd (combine a b) = b.
Proof.
  revert b. induction a as [|x a IH]; intros [|y b] H; simpl in *; try discriminate.
  - reflexivity.
  - rewrite IH by lia. reflexivity.
Qed.

Lemma interp1d_sorted (td mag : list Q) :
  length td = length mag -> (2 <= length td)%nat -> Spec.strictly_increasing td ->
  Sp.interp1d td mag = Ok (Sp.mkInterpolant td mag).
Proof.
  intros Hlen H2 Hinc. unfold Sp.interp1d.
  rewrite Hlen, Nat.eqb_refl. simpl negb. cbv iota.
  destruct (length mag <? 2)%nat eqn:E; [apply Nat.ltb_lt in E; lia|].
  rewrite sort_knots_sorted by (rewrite map_fst_combine by exact Hlen; exact Hinc).
  rewrite map_fst_combine, map_snd_combine by exact Hlen. reflexivity.
Qed.

Lemma call_in_bounds (f : Sp.Interpolant) (lo hi : Q) (x_new : list Q) :
  Py.first (Sp.knots_x f) = Ok lo -> Py.last (Sp.knots_x f) = Ok hi ->
  (forall g, In g x_new -> lo <= g /\ g <= hi) ->
  Sp.call f x_new = Ok (map (Sp.eval_linear (Sp.knots_x f) (Sp.knots_y f)) x_new).
Proof.
  intros Hlo Hhi Hall. unfold Sp.call.
  assert (Hb : forallb (Sp.in_bounds f) x_new = true).
  { apply forallb_forall. intros g Hg. unfold Sp.in_bounds. rewrite Hlo, Hhi.
    destruct (Hall g Hg) as [H1 H2].
    apply andb_true_intro. split; apply Qle_bool_iff; assumption. }
  rewrite Hb. reflexivity.
Qed.

(** ** The magnitude channel of the resampled frame *)

Lemma fill_linear_present (prev : option Q) (l : list Q) :
  Pd.fill_linear prev (map Some l) = l.
Proof.
  revert prev. induction l as [|x l IH]; intros prev; simpl; [reflexivity|].
  rewrite IH. reflexivity.
Qed.

Lemma lookup_map_columns {V W : Type} (F : V -> W) (name : string) (cols : list (string * V)) :
  Pd.lookup name (map (fun c => (fst c, F (snd c))) cols) = option_map F (Pd.lookup name cols).
Proof.
  induction cols as [|[n c] rest IH]; simpl; [reflexivity|].
  destruct (String.eqb n name); [reflexivity | exact IH].
Qed.

Lemma binned_set_column (b b' : Pd.Binned) (name : string) (vals : list Q) :
  Pd.binned_set b name vals = Ok b' ->
  Pd.column (Pd.interpolate_linear b') name = Ok vals.
Proof.
  unfold Pd.binned_set. destruct (_ =? _)%nat; [|discriminate].
  intros H. injection H as <-. unfold Pd.column, Pd.interpolate_linear. simpl.
  rewrite lookup_map_columns, lookup_set_column_same. simpl.
  rewrite fill_linear_present. reflexivity.
Qed.
Lemma first_last_exist (l : list Q) :
  (2 <= length l)%nat -> exists a b, Py.first l = Ok a /\ Py.last l = Ok b.
Proof.
  intros H. unfold Py.first, Py.last.
  destruct l as [|x l]; [simpl in H; lia|].
  destruct (rev (x :: l)) as [|y r] eqn:E.
  - apply (f_equal (@length Q)) in E. rewrite length_rev in E. simpl in E. lia.
  - eauto.
Qed.

(** ** Already-uniform signals *)

Lemma Qfloor_unique (y : Q) (z : Z) :
  inject_Z z <= y -> y < inject_Z (z + 1) -> Qfloor y = z.
Proof.
  intros H1 H2.
  assert (Ha : (z <= Qfloor y)%Z).
  { rewrite <- (Qfloor_Z z). apply Qfloor_resp_le. exact H1. }
  assert (Hb : (Qfloor y < z + 1)%Z).
  { rewrite Zlt_Qlt. apply Qle_lt_trans with y; [apply Qfloor_le | exact H2]. }
  lia.
Qed.

Lemma strictly_increasing_map_seq (f : nat -> Q) (a n : nat) :
  (forall i, f i < f (S i)) -> Spec.strictly_increasing (map f (seq a n)).
Proof.
  intros Hf. revert a. induction n as [|n IH]; intros a; simpl; [exact I|].
  destruct n as [|n]; simpl; [exact I|].
  split; [apply Hf | apply (IH (S a))].
Qed.

Lemma last_map_seq (f : nat -> Q) (n : nat) :
  Py.last (map f (seq 0 (S n))) = Ok (f n).
Proof.
  unfold Py.last. rewrite seq_S, map_app, rev_app_distr. reflexivity.
Qed.

Lemma fold_min_first (l : list Q) (a : Q) :
  (forall x, In x l -> a <= x) -> fold_left Pd.Qmin l a = a.
Proof.
  revert a. induction l as [|b l IH]; intros a H; simpl; [reflexivity|].
  assert (Hb : Pd.Qmin a b = a).
  { unfold Pd.Qmin. destruct (Py.Qltb b a) eqn:E; [|reflexivity].
    apply Qltb_lt in E. specialize (H b (or_introl eq_refl)). lra. }
  rewrite Hb. apply IH. intros x Hx. apply H. right. exact Hx.
Qed.

Lemma fold_max_last (f : nat -> Q) (a n : nat) :
  (forall i, f i < f (S i)) ->
  fold_left Pd.Qmax (map f (seq (S a) n)) (f a) = f (a + n)%nat.
Proof.
  intros Hf. revert a. induction n as [|n IH]; intros a; simpl.
  - rewrite Nat.add_0_r. reflexivity.
  - assert (Hb : Pd.Qmax (f a) (f (S a)) = f (S a)).
    { unfold Pd.Qmax. destruct (Py.Qltb (f a) (f (S a))) eqn:E; [reflexivity|].
      apply Qltb_ge in E. specialize (Hf a). lra. }
    rewrite Hb, IH. f_equal. lia.
Qed.

Lemma increasing_from_first (f : nat -> Q) (i : nat) :
  (forall i, f i < f (S i)) -> f 0%nat <= f i.
Proof.
  intros Hf. induction i as [|i IH]; [apply Qle_refl|].
  specialize (Hf i). lra.
Qed.

Lemma step_increasing (c R : Q) :
  0 < R -> forall i, c + inject_Z (Z.of_nat i) / R < c + inject_Z (Z.of_nat (S i)) / R.
Proof.
  intros HR i. rewrite Nat2Z.inj_succ. unfold Z.succ. rewrite inject_Z_plus.
  assert (H : 0 < 1 / R) by (apply Qlt_shift_div_l; lra).
  assert (E : (inject_Z (Z.of_nat i) + inject_Z 1) / R
              == inject_Z (Z.of_nat i) / R + 1 / R) by (field; lra).
  rewrite E. lra.
Qed.

Lemma uniform_rows (df : Pd.DataFrame) (R t0 : Q) (m : nat) :
  0 < R ->
  Pd.index df = map (fun i => t0 + inject_Z (Z.of_nat i) / R) (seq 0 (S m)) ->
  length (Pd.b_index (Pd.resample_mean df (1 / R))) = S m.
Proof.
  intros HR Hidx. unfold Pd.resample_mean. rewrite Hidx.
  set (g := fun i => t0 + inject_Z (Z.of_nat i) / R).
  cbn [seq map]. 
  assert (Hg : forall i, g i < g (S i)) by (intros i; apply step_increasing; exact HR).
  rewrite fold_min_first.
  2:{ intros x Hx. apply in_map_iff in Hx. destruct Hx as [i [<- _]].
      apply increasing_from_first. exact Hg. }
  rewrite (fold_max_last g 0 m Hg). simpl plus.
  cbn [Pd.b_index]. rewrite length_map, length_seq.
  set (w := 1 / R). set (x := g 0%nat / w).
  assert (Hw : 0 < w) by (apply Qlt_shift_div_l; lra).
  assert (Hval : (g m - inject_Z (Qfloor x) * w) / w
                 == inject_Z (Z.of_nat m) + (x - inject_Z (Qfloor x))).
  { unfold x, g, w. simpl Z.of_nat. field. lra. }
  rewrite (Qfloor_unique _ (Z.of_nat m)).
  - lia.
  - rewrite Hval. pose proof (Qfloor_le x). lra.
  - rewrite Hval. pose proof (Qlt_floor x) as Hlt.
    rewrite inject_Z_plus in Hlt |- *. lra.
Qed.

Lemma uniform_grid_length (R s0 : Q) (m : nat) :
  0 < R ->
  length (Np.arange (s0 + inject_Z (Z.of_nat 0) / R) (s0 + inject_Z (Z.of_nat m) / R) (1 / R))
  = m.
Proof.
  intros HR. unfold Np.arange. rewrite length_map, length_seq.
  assert (E : (s0 + inject_Z (Z.of_nat m) / R - (s0 + inject_Z (Z.of_nat 0) / R)) / (1 / R)
              == inject_Z (Z.of_nat m)) by (simpl Z.of_nat; field; lra).
  rewrite E, Qceiling_Z. apply Nat2Z.id.
Qed.
Lemma uniform_signal_never_resampled
  (df : Pd.DataFrame) (R t0 s0 : Q) (n : nat) (mag : list Q) :
  Spec.uniform_at df R t0 s0 n mag -> 0 < R -> (2 <= n)%nat ->
  resample_signal df R = Raise ValueError.
Proof.
  intros [Hidx [Htd [Hmag Hlen]]] HR Hn.
  destruct n as [|m]; [lia|].
  set (f := fun i => s0 + inject_Z (Z.of_nat i) / R) in *.
  assert (Hf : forall i, f i < f (S i)) by (intros i; apply step_increasing; exact HR).
  assert (Htd_len : length (map f (seq 0 (S m))) = S m)
    by (rewrite length_map, length_seq; reflexivity).
  assert (Hinterp : Sp.interp1d (map f (seq 0 (S m))) mag
                    = Ok (Sp.mkInterpolant (map f (seq 0 (S m))) mag)).
  { apply interp1d_sorted.
    - congruence.
    - lia.
    - apply strictly_increasing_map_seq. exact Hf. }
  assert (Hfirst : Py.first (map f (seq 0 (S m))) = Ok (f 0%nat)) by reflexivity.
  pose proof (last_map_seq f m) as Hlast.
  assert (Hstep : 0 < 1 / R) by (apply Qlt_shift_div_l; lra).
  assert (Hcall : Sp.call (Sp.mkInterpolant (map f (seq 0 (S m))) mag)
                    (Np.arange (f 0%nat) (f m) (1 / R))
                  = Ok (map (Sp.eval_linear (map f (seq 0 (S m))) mag)
                            (Np.arange (f 0%nat) (f m) (1 / R)))).
  { apply (call_in_bounds (Sp.mkInterpolant (map f (seq 0 (S m))) mag) (f 0%nat) (f m));
      [exact Hfirst | exact Hlast |].
    intros g Hg. destruct (arange_range _ _ _ g Hstep Hg) as [H1 H2].
    split; [exact H1 | lra]. }
  unfold resample_signal.
  destruct (Qeq_bool R 0) eqn:E0; [apply Qeq_bool_eq in E0; lra|].
  destruct (Py.Qltb R 0) eqn:E1; [apply Qltb_lt in E1; lra|].
  destruct (Pd.rule_ok (1 / R)); [|reflexivity]. cbv beta iota delta [negb].
  rewrite Htd, Hmag. cbv beta iota zeta delta [bind].
  rewrite Hinterp, Hfirst, Hlast, Hcall.
  unfold Pd.binned_set.
  rewrite length_map, (uniform_rows df R t0 m HR Hidx).
  unfold f. rewrite (uniform_grid_length R s0 m HR).
  destruct (m =? S m)%nat eqn:E; [apply Nat.eqb_eq in E; lia | reflexivity].
Qed.

(** C8 (the code at the failing input).  Three samples 10 ms apart are
    already uniform at 100 Hz.  The grid [arange(0, 0.02, 0.01)] stops
    before the last timestamp and has two points, the bin-averaged frame has
    three rows (one per sample), and writing two values into a column of
    three rows is a ValueError: the call does not return the signal.  In
    exact arithmetic the same happens for every signal of at least two
    samples that is already uniform at the rate asked for. *)
Theorem resample_uniform_signal_fails :
  Spec.valid_signal Ex.uniform3 [0; 1 # 100; 2 # 100] [1; 2; 3] /\
  Np.arange 0 (2 # 100) (1 / SAMPLING_FREQUENCY)
    = [0 + inject_Z 0 * (1 / SAMPLING_FREQUENCY); 0 + inject_Z 1 * (1 / SAMPLING_FREQUENCY)] /\
  length (Pd.b_index (Pd.resample_mean Ex.uniform3 (1 / SAMPLING_FREQUENCY))) = 3%nat /\
  resample_signal Ex.uniform3 SAMPLING_FREQUENCY = Raise ValueError /\
  (forall df R t0 s0 n mag,
     Spec.uniform_at df R t0 s0 n mag -> 0 < R -> (2 <= n)%nat ->
     resample_signal df R = Raise ValueError).
Proof.
  split.
  - unfold Spec.valid_signal. repeat split; simpl; try reflexivity; lia.
  - split; [reflexivity|]. split; [reflexivity|]. split; [reflexivity|].
    exact uniform_signal_never_resampled.
Qed.
(** * Further properties *)

(** ** The band extractors *)

Lemma in_band_spec (lo hi f : Q) : Spec.in_band lo hi f = true <-> lo < f /\ f < hi.
Proof.
  rewrite in_band_mask, andb_true_iff, !Qltb_lt. reflexivity.
Qed.

Lemma sum_nonneg (f : nat -> Q) (l : list nat) :
  (forall k, In k l -> 0 <= f k) -> 0 <= fold_right Qplus 0 (map f l).
Proof.
  induction l as [|k l IH]; intros H; simpl; [apply Qle_refl|].
  assert (0 <= f k) by (apply H; left; reflexivity).
  assert (0 <= fold_right Qplus 0 (map f l)) by (apply IH; intros j Hj; apply H; right; exact Hj).
  lra.
Qed.

Lemma sum_le (f g : nat -> Q) (l : list nat) :
  (forall k, In k l -> f k <= g k) ->
  fold_right Qplus 0 (map f l) <= fold_right Qplus 0 (map g l).
Proof.
  induction l as [|k l IH]; intros H; simpl; [apply Qle_refl|].
  assert (f k <= g k) by (apply H; left; reflexivity).
  assert (fold_right Qplus 0 (map f l) <= fold_right Qplus 0 (map g l))
    by (apply IH; intros j Hj; apply H; right; exact Hj).
  lra.
Qed.

Lemma band_sum_nonneg (bins : nat) (freq value : nat -> Q) (lo hi : Q) :
  (forall k, (k < bins)%nat -> 0 <= value k) ->
  0 <= Spec.band_sum bins freq value lo hi.
Proof.
  intros H. unfold Spec.band_sum. apply sum_nonneg.
  intros k Hk. apply in_seq in Hk.
  destruct (Spec.in_band lo hi (freq k)); [apply H; lia | apply Qle_refl].
Qed.

Lemma band_sum_widen (bins : nat) (freq value : nat -> Q) (lo hi lo' hi' : Q) :
  (forall k, (k < bins)%nat -> 0 <= value k) ->
  lo' <= lo -> hi <= hi' ->
  Spec.band_sum bins freq value lo hi <= Spec.band_sum bins freq value lo' hi'.
Proof.
  intros H Hlo Hhi. unfold Spec.band_sum. apply sum_le.
  intros k Hk. apply in_seq in Hk.
  destruct (Spec.in_band lo hi (freq k)) eqn:E.
  - apply in_band_spec in E. destruct E as [E1 E2].
    assert (E' : Spec.in_band lo' hi' (freq k) = true) by (apply in_band_spec; split; lra).
    rewrite E'. apply Qle_refl.
  - destruct (Spec.in_band lo' hi' (freq k)); [apply H; lia | apply Qle_refl].
Qed.

Lemma in_band_inverted (lo hi f : Q) : hi <= lo -> Spec.in_band lo hi f = false.
Proof.
  intros H. destruct (Spec.in_band lo hi f) eqn:E; [|reflexivity].
  apply in_band_spec in E. lra.
Qed.

(** X1.  For a frame that [fft_signal] builds for a window of at least two
    samples, [tremor_amplitude] returns and the frequency it reports is a
    bin frequency below half the sampling rate: at least 0 Hz and strictly
    less than 50 Hz, whatever the band. *)
Theorem tremor_frequency_below_nyquist
  (lib : Library) (df : Pd.DataFrame) (window : nat) (fr : SpectralFrame)
  (lo hi : Q) (self : TremorProcessor) :
  fft_signal lib df window = Ok fr -> (2 <= window)%nat ->
  fst (tremor_amplitude lib fr lo hi self) = Ok tt /\
  0 <= frequency (snd (tremor_amplitude lib fr lo hi self)) /\
  frequency (snd (tremor_amplitude lib fr lo hi self)) < SAMPLING_FREQUENCY / 2.
Proof.
  intros Hfr Hw.
  destruct (fft_signal_frame lib df window fr Hfr Hw) as [Hf Ht].
  destruct (tremor_amplitude_frame lib fr lo hi self window Hf Ht Hw)
    as [A [F [m [Hrun [_ [[Hm _] HF]]]]]].
  rewrite Hrun. simpl. split; [reflexivity|]. rewrite HF.
  unfold Spec.bin_frequency, SAMPLING_FREQUENCY.
  assert (H2m : (2 * m < window)%nat).
  { pose proof (Nat.div_mod_eq window 2) as E.
    pose proof (Nat.mod_upper_bound window 2). lia. }
  assert (HW : 0 < inject_Z (Z.of_nat window)).
  { change 0 with (inject_Z 0). rewrite <- Zlt_Qlt. lia. }
  assert (Hm0 : 0 <= inject_Z (Z.of_nat m)).
  { change 0 with (inject_Z 0). rewrite <- Zle_Qle. lia. }
  assert (Hmw : 2 * inject_Z (Z.of_nat m) < inject_Z (Z.of_nat window)).
  { change 2 with (inject_Z 2). rewrite <- inject_Z_mult, <- Zlt_Qlt. lia. }
  split.
  - apply Qle_shift_div_l; [exact HW|]. lra.
  - apply Qlt_shift_div_r; [exact HW|].
    assert (E : 100 / 2 * inject_Z (Z.of_nat window) == 50 * inject_Z (Z.of_nat window))
      by field.
    rewrite E. lra.
Qed.

Lemma tremor_frequency_below_nyquist_witness :
  (2 <= 2)%nat /\
  exists fr,
    fft_signal Ex.lib Ex.filtered4 2 = Ok fr /\
    fst (tremor_amplitude Ex.lib fr 2 10 init) = Ok tt /\
    0 <= frequency (snd (tremor_amplitude Ex.lib fr 2 10 init)) /\
    frequency (snd (tremor_amplitude Ex.lib fr 2 10 init)) < SAMPLING_FREQUENCY / 2.
Proof.
  assert (Hw : (2 <= 2)%nat) by lia.
  split; [exact Hw|].
  destruct (fft_signal Ex.lib Ex.filtered4 2) as [fr|e] eqn:Hfr; [|discriminate].
  exists fr. split; [reflexivity|].
  exact (tremor_frequency_below_nyquist Ex.lib Ex.filtered4 2 fr 2 10 init Hfr Hw).
Defined.
(** X2.  When the modulus is never negative, the amplitude that
    [tremor_amplitude] sets is never negative, and widening the band never
    lowers it: with [lo' <= lo] and [hi <= hi'] the amplitude for
    [(lo', hi')] is at least the amplitude for [(lo, hi)]. *)
Theorem tremor_amplitude_nonnegative_monotone
  (lib : Library) (df : Pd.DataFrame) (window : nat) (fr : SpectralFrame)
  (lo hi lo' hi' : Q) (self self' : TremorProcessor) :
  (forall z, 0 <= cabs lib z) ->
  fft_signal lib df window = Ok fr -> (2 <= window)%nat ->
  lo' <= lo -> hi <= hi' ->
  0 <= amplitude (snd (tremor_amplitude lib fr lo hi self)) /\
  amplitude (snd (tremor_amplitude lib fr lo hi self))
    <= amplitude (snd (tremor_amplitude lib fr lo' hi' self')).
Proof.
  intros Habs Hfr Hw Hlo Hhi.
  destruct (fft_signal_frame lib df window fr Hfr Hw) as [Hf Ht].
  destruct (tremor_amplitude_frame lib fr lo hi self window Hf Ht Hw)
    as [A [F [m [Hrun [HA _]]]]].
  destruct (tremor_amplitude_frame lib fr lo' hi' self' window Hf Ht Hw)
    as [A' [F' [m' [Hrun' [HA' _]]]]].
  rewrite Hrun, Hrun'. simpl. rewrite HA, HA'.
  assert (Hv : forall k, (k < window / 2)%nat ->
                 0 <= Spec.magnitude lib window (transformed_signal fr) k).
  { intros k _. unfold Spec.magnitude. apply Habs. }
  split.
  - apply band_sum_nonneg. exact Hv.
  - apply band_sum_widen; assumption.
Qed.

Lemma tremor_amplitude_nonnegative_monotone_witness :
  (forall z, 0 <= cabs Ex.lib z) /\
  exists fr,
    fft_signal Ex.lib Ex.filtered4 4 = Ok fr /\
    0 <= amplitude (snd (tremor_amplitude Ex.lib fr 2 10 init)) /\
    amplitude (snd (tremor_amplitude Ex.lib fr 2 10 init))
      <= amplitude (snd (tremor_amplitude Ex.lib fr 1 30 init)).
Proof.
  assert (Habs : forall z, 0 <= cabs Ex.lib z).
  { intros z. simpl.
    pose proof (Qabs_nonneg (fst z)). pose proof (Qabs_nonneg (snd z)). lra. }
  split; [exact Habs|].
  destruct (fft_signal Ex.lib Ex.filtered4 4) as [fr|e] eqn:Hfr; [|discriminate].
  exists fr. split; [reflexivity|].
  apply (tremor_amplitude_nonnegative_monotone Ex.lib Ex.filtered4 4 fr 2 10 1 30 init init
           Habs Hfr).
  - lia.
  - discriminate.
  - discriminate.
Defined.

(** X3.  A band whose upper bound is not above its lower bound holds no
    bin: both extractors return with an amplitude equal to 0 (the peak
    frequency is still reported), provided the spectrum has a bin. *)
Theorem inverted_band_amplitude_zero :
  (forall (lib : Library) (df : Pd.DataFrame) (window : nat) (fr : SpectralFrame)
          (lo hi : Q) (self : TremorProcessor),
     fft_signal lib df window = Ok fr -> (2 <= window)%nat -> hi <= lo ->
     fst (tremor_amplitude lib fr lo hi self) = Ok tt /\
     amplitude (snd (tremor_amplitude lib fr lo hi self)) == 0) /\
  (forall (lib : Library) (df : Pd.DataFrame) (window : nat) (lo hi : Q)
          (self : TremorProcessor) (fs frq Pxx : list Q),
     Pd.column df "filtered_signal" = Ok fs ->
     welch lib fs SAMPLING_FREQUENCY window = Ok (frq, Pxx) ->
     length frq = length Pxx -> Pxx <> [] -> hi <= lo ->
     fst (tremor_amplitude_by_welch lib df window lo hi self) = Ok tt /\
     amplitude (snd (tremor_amplitude_by_welch lib df window lo hi self)) == 0).
Proof.
  split.
  - intros lib df window fr lo hi self Hfr Hw Hinv.
    destruct (fft_signal_frame lib df window fr Hfr Hw) as [Hf Ht].
    destruct (tremor_amplitude_frame lib fr lo hi self window Hf Ht Hw)
      as [A [F [m [Hrun [HA _]]]]].
    rewrite Hrun. simpl. split; [reflexivity|]. rewrite HA.
    apply band_sum_empty. intros k _. apply in_band_inverted. exact Hinv.
  - intros lib df window lo hi self fs frq Pxx Hfs Hw Hlen Hne Hinv.
    destruct (welch_psd lib df window lo hi self fs frq Pxx Hfs Hw Hlen Hne)
      as [A [m [Hrun [_ HA]]]].
    rewrite Hrun. simpl. split; [reflexivity|]. rewrite HA.
    apply band_sum_empty. intros k _. apply in_band_inverted. exact Hinv.
Qed.

Lemma inverted_band_amplitude_zero_witness :
  (exists fr,
     fft_signal Ex.lib Ex.filtered4 4 = Ok fr /\
     fst (tremor_amplitude Ex.lib fr 10 2 init) = Ok tt /\
     amplitude (snd (tremor_amplitude Ex.lib fr 10 2 init)) == 0) /\
  (fst (tremor_amplitude_by_welch Ex.lib Ex.filtered4 256 10 2 init) = Ok tt /\
   amplitude (snd (tremor_amplitude_by_welch Ex.lib Ex.filtered4 256 10 2 init)) == 0).
Proof.
  split.
  - destruct (fft_signal Ex.lib Ex.filtered4 4) as [fr|e] eqn:Hfr; [|discriminate].
    exists fr. split; [reflexivity|].
    apply (proj1 inverted_band_amplitude_zero Ex.lib Ex.filtered4 4%nat fr 10 2 init Hfr).
    + lia.
    + discriminate.
  - apply (proj2 inverted_band_amplitude_zero Ex.lib Ex.filtered4 256%nat 10 2 init
             [1; 1; 1; 1] [0; 100 / 2] [1; 2]).
    + reflexivity.
    + reflexivity.
    + reflexivity.
    + discriminate.
    + discriminate.
Defined.
(** X4.  The two extractors fail differently on a spectrum without bins.
    [tremor_amplitude] writes the amplitude before it looks for the peak: on
    a frame of at most one sample it raises ValueError having already
    overwritten the amplitude with 0, the frequency keeping its old value.
    [tremor_amplitude_by_welch] looks for the peak first: on an empty power
    estimate it raises ValueError and leaves both fields as they were. *)
Theorem extractor_failure_fields :
  (forall (lib : Library) (fr : SpectralFrame) (lo hi : Q) (self : TremorProcessor),
     (length (filtered_signal fr) <= 1)%nat ->
     length (transformed_signal fr) = length (filtered_signal fr) ->
     tremor_amplitude lib fr lo hi self
       = (Raise ValueError, mkTremorProcessor 0 (frequency self))) /\
  (forall (lib : Library) (df : Pd.DataFrame) (window : nat) (lo hi : Q)
          (self : TremorProcessor) (fs frq : list Q),
     Pd.column df "filtered_signal" = Ok fs ->
     welch lib fs SAMPLING_FREQUENCY window = Ok (frq, []) ->
     tremor_amplitude_by_welch lib df window lo hi self = (Raise ValueError, self)).
Proof.
  split.
  - intros lib [idx fsig tsig times] lo hi self Hlen Ht. simpl in *.
    destruct fsig as [|x [|x' fsig]]; simpl in Hlen; try lia.
    + destruct tsig as [|t tsig]; simpl in Ht; [|discriminate]. reflexivity.
    + destruct tsig as [|t [|t' tsig]]; simpl in Ht; try discriminate. reflexivity.
  - intros lib df window lo hi self fs frq Hfs Hw.
    unfold tremor_amplitude_by_welch, mbind, lift. rewrite Hfs, Hw. reflexivity.
Qed.

Lemma extractor_failure_fields_witness :
  exists fr,
    fft_signal Ex.lib Ex.filtered4 1 = Ok fr /\
    (length (filtered_signal fr) <= 1)%nat /\
    tremor_amplitude Ex.lib fr 2 10 (mkTremorProcessor 7 5)
      = (Raise ValueError, mkTremorProcessor 0 5).
Proof.
  destruct (fft_signal Ex.lib Ex.filtered4 1) as [fr|e] eqn:Hfr; [|discriminate].
  exists fr. split; [reflexivity|].
  assert (Hlen : (length (filtered_signal fr) <= 1)%nat).
  { revert Hfr. vm_compute. intros H. injection H as <-. simpl. lia. }
  assert (Ht : length (transformed_signal fr) = length (filtered_signal fr)).
  { revert Hfr. vm_compute. intros H. injection H as <-. reflexivity. }
  split; [exact Hlen|].
  exact (proj1 extractor_failure_fields Ex.lib fr 2 10 (mkTremorProcessor 7 5) Hlen Ht).
Defined.
Lemma sum_app (f : nat -> Q) (l1 l2 : list nat) :
  fold_right Qplus 0 (map f (l1 ++ l2))
  == fold_right Qplus 0 (map f l1) + fold_right Qplus 0 (map f l2).
Proof.
  induction l1 as [|k l1 IH]; simpl; [ring|]. rewrite IH. ring.
Qed.

Lemma sum_zero (f : nat -> Q) (l : list nat) :
  (forall k, In k l -> f k == 0) -> fold_right Qplus 0 (map f l) == 0.
Proof.
  induction l as [|k l IH]; intros H; simpl; [reflexivity|].
  rewrite (H k) by (left; reflexivity). rewrite IH; [ring|].
  intros j Hj. apply H. right. exact Hj.
Qed.

(** The default band holds the bins 6 to 25 of a 256-point transform. *)
Lemma default_band_bins (k : nat) :
  (k < 128)%nat ->
  Spec.in_band LOWER_FREQUENCY_TREMOR UPPER_FREQUENCY_TREMOR (Spec.bin_frequency WINDOW k)
  = ((6 <=? k) && (k <=? 25))%nat.
Proof.
  intros Hk. rewrite in_band_mask.
  assert (H : forallb (fun k =>
                Bool.eqb (Py.Qltb LOWER_FREQUENCY_TREMOR (Spec.bin_frequency WINDOW k)
                          && Py.Qltb (Spec.bin_frequency WINDOW k) UPPER_FREQUENCY_TREMOR)
                         ((6 <=? k) && (k <=? 25))%nat) (seq 0 128) = true)
    by (vm_compute; reflexivity).
  rewrite forallb_forall in H.
  apply Bool.eqb_prop. apply H. apply in_seq. lia.
Qed.

(** X5.  With the defaults ([WINDOW] = 256 samples, band 2 to 10 Hz at
    100 Hz) the amplitude is the sum of the magnitudes of the twenty bins 6
    to 25 of the transform (2.34 Hz to 9.77 Hz), each bin divided by 256:
    bin 5 (1.95 Hz) and bin 26 (10.16 Hz) are the first ones left out. *)
Theorem default_band_amplitude
  (lib : Library) (df : Pd.DataFrame) (fr : SpectralFrame) (self : TremorProcessor) :
  fft_signal lib df WINDOW = Ok fr ->
  amplitude (snd (tremor_amplitude lib fr LOWER_FREQUENCY_TREMOR UPPER_FREQUENCY_TREMOR self))
  == fold_right Qplus 0
       (map (Spec.magnitude lib WINDOW (transformed_signal fr)) (seq 6 20)).
Proof.
  intros Hfr.
  assert (Hw : (2 <= WINDOW)%nat) by (unfold WINDOW; lia).
  destruct (fft_signal_frame lib df WINDOW fr Hfr Hw) as [Hf Ht].
  destruct (tremor_amplitude_frame lib fr LOWER_FREQUENCY_TREMOR UPPER_FREQUENCY_TREMOR
              self WINDOW Hf Ht Hw) as [A [F [m [Hrun [HA _]]]]].
  rewrite Hrun. cbn [snd amplitude]. rewrite HA. unfold Spec.band_sum.
  change (WINDOW / 2)%nat with 128%nat.
  change (seq 0 128) with (seq 0 6 ++ seq 6 20 ++ seq 26 102).
  rewrite !sum_app.
  rewrite (sum_zero _ (seq 0 6)), (sum_zero _ (seq 26 102)).
  - rewrite Qplus_0_l, Qplus_0_r. apply sum_ext.
    intros k Hk. apply in_seq in Hk. rewrite default_band_bins by lia.
    destruct (6 <=? k)%nat eqn:E1; [|apply Nat.leb_gt in E1; lia].
    destruct (k <=? 25)%nat eqn:E2; [|apply Nat.leb_gt in E2; lia].
    reflexivity.
  - intros k Hk. apply in_seq in Hk. rewrite default_band_bins by lia.
    destruct (k <=? 25)%nat eqn:E2; [apply Nat.leb_le in E2; lia|].
    rewrite andb_false_r. reflexivity.
  - intros k Hk. apply in_seq in Hk. rewrite default_band_bins by lia.
    destruct (6 <=? k)%nat eqn:E1; [apply Nat.leb_le in E1; lia|].
    reflexivity.
Qed.

Lemma default_band_amplitude_witness :
  exists fr,
    fft_signal Ex.lib Ex.filtered256 WINDOW = Ok fr /\
    amplitude (snd (tremor_amplitude Ex.lib fr LOWER_FREQUENCY_TREMOR UPPER_FREQUENCY_TREMOR init))
    == fold_right Qplus 0
         (map (Spec.magnitude Ex.lib WINDOW (transformed_signal fr)) (seq 6 20)).
Proof.
  destruct (fft_signal Ex.lib Ex.filtered256 WINDOW) as [fr|e] eqn:Hfr.
  - exists fr. split; [reflexivity|].
    exact (default_band_amplitude Ex.lib Ex.filtered256 fr init Hfr).
  - vm_compute in Hfr. discriminate.
Defined.
(** ** The windowed transform *)

(** X6.  The excerpt of [fft_signal] is centered: on a well-formed frame of
    at least [window >= 1] samples, the samples left out before the excerpt
    and those left out after it add up, with the window, to the whole
    signal, and there are as many after as before, or one more (when the
    signal and the window differ by an odd number of samples). *)
Theorem fft_signal_excerpt_centered
  (lib : Library) (df : Pd.DataFrame) (window : nat) (fs td : list Q) :
  Pd.well_formed df ->
  Pd.column df "filtered_signal" = Ok fs ->
  Pd.column df "td" = Ok td ->
  (0 < window <= length fs)%nat ->
  exists fr before after,
    fft_signal lib df window = Ok fr /\
    (before + window + after = length fs)%nat /\
    (before <= after <= before + 1)%nat /\
    forall i, (i < window)%nat ->
      nth i (filtered_signal fr) 0 = nth (before + i) fs 0 * hann_coeff lib window i /\
      nth i (dt fr) 0 = nth (before + i) td 0.
Proof.
  intros Hwf Hfs Htd Hw.
  destruct (fft_signal_excerpt lib df window fs td Hwf Hfs Htd Hw)
    as [fr [Hfr [Hll0 [Hrr [HrrL [_ [_ [_ [_ [_ Hnth]]]]]]]]]].
  rewrite floor_half_diff in Hll0, Hrr, Hnth.
  rewrite floor_half_sum in Hrr, HrrL.
  set (L := Z.of_nat (length fs)) in *. set (W := Z.of_nat window) in *.
  set (ll := ((L - W) / 2)%Z) in *.
  assert (Hdiv : (L - W = 2 * ll + (L - W) mod 2)%Z) by (apply Z.div_mod; lia).
  pose proof (Z.mod_pos_bound (L - W) 2 ltac:(lia)) as Hmod.
  exists fr, (Z.to_nat ll), (length fs - window - Z.to_nat ll)%nat.
  split; [exact Hfr|]. split; [unfold L, W in *; lia|]. split; [unfold L, W in *; lia|].
  intros i Hi. destruct (Hnth i Hi) as [H1 [H2 _]]. split; assumption.
Qed.

Lemma fft_signal_excerpt_centered_witness :
  Pd.well_formed Ex.filtered4 /\
  (0 < 1 <= 4)%nat /\
  exists fr before after,
    fft_signal Ex.lib Ex.filtered4 1 = Ok fr /\
    (before + 1 + after = 4)%nat /\
    (before <= after <= before + 1)%nat.
Proof.
  assert (Hwf : Pd.well_formed Ex.filtered4) by (repeat constructor).
  assert (Hw : (0 < 1 <= 4)%nat) by lia.
  split; [exact Hwf|]. split; [exact Hw|].
  destruct (fft_signal_excerpt_centered Ex.lib Ex.filtered4 1 [1; 1; 1; 1]
              [0; 1 # 100; 2 # 100; 3 # 100] Hwf eq_refl eq_refl Hw)
    as [fr [before [after [H1 [H2 [H3 _]]]]]].
  exists fr, before, after. split; [exact H1|]. split; [exact H2 | exact H3].
Defined.
(** ** The resampled frame *)

Lemma resample_signal_Ok_inv (df out : Pd.DataFrame) (R : Q) :
  resample_signal df R = Ok out ->
  exists mag vals b',
    Pd.column df "mag_sum_acc" = Ok mag /\
    Pd.binned_set (Pd.resample_mean df (1 / R)) "mag_sum_acc" vals = Ok b' /\
    out = Pd.interpolate_linear b'.
Proof.
  unfold resample_signal. intros H.
  destruct (Qeq_bool R 0); [discriminate|].
  destruct (Py.Qltb R 0); [discriminate|].
  destruct (Pd.rule_ok (1 / R)); [|discriminate]. cbv beta iota delta [negb] in H.
  apply bind_Ok_inv in H. destruct H as [td [_ H]].
  apply bind_Ok_inv in H. destruct H as [mag [Hmag H]].
  apply bind_Ok_inv in H. destruct H as [f [_ H]].
  apply bind_Ok_inv in H. destruct H as [t0 [_ H]].
  apply bind_Ok_inv in H. destruct H as [tn [_ H]].
  apply bind_Ok_inv in H. destruct H as [vals [_ H]].
  apply bind_Ok_inv in H. destruct H as [b' [Hb H]].
  injection H as <-. exists mag, vals, b'. auto.
Qed.

Lemma fill_linear_length (prev : option Q) (l : list (option Q)) :
  length (Pd.fill_linear prev l) = length l.
Proof.
  revert prev. induction l as [|[v|] l IH]; intros prev; simpl;
    [reflexivity | rewrite IH; reflexivity | rewrite IH; reflexivity].
Qed.

Lemma resample_mean_shape (df : Pd.DataFrame) (w : Q) :
  map fst (Pd.b_columns (Pd.resample_mean df w)) = map fst (Pd.columns df) /\
  Forall (fun c => length (snd c) = length (Pd.b_index (Pd.resample_mean df w)))
         (Pd.b_columns (Pd.resample_mean df w)).
Proof.
  unfold Pd.resample_mean. destruct (Pd.index df) as [|t ts]; simpl.
  - split.
    + rewrite map_map. reflexivity.
    + apply Forall_forall. intros c Hc. apply in_map_iff in Hc.
      destruct Hc as [c0 [<- _]]. reflexivity.
  - split.
    + rewrite map_map. reflexivity.
    + apply Forall_forall. intros c Hc. apply in_map_iff in Hc.
      destruct Hc as [c0 [<- _]]. simpl. rewrite !length_map. reflexivity.
Qed.

Lemma lookup_names {V : Type} (name : string) (cols : list (string * V)) :
  Pd.lookup name cols <> None <-> In name (map fst cols).
Proof.
  induction cols as [|[n c] rest IH]; simpl.
  - split; [congruence | intros []].
  - destruct (String.eqb n name) eqn:E.
    + apply String.eqb_eq in E. split; [auto | discriminate].
    + apply String.eqb_neq in E. rewrite IH. split; [auto | intros [H|H]; [congruence | exact H]].
Qed.

Lemma set_column_lengths_opt (name : string) (v : list (option Q))
  (cols : list (string * list (option Q))) (k : nat) :
  Forall (fun c => length (snd c) = k) cols -> length v = k ->
  Forall (fun c => length (snd c) = k) (Pd.set_column name v cols).
Proof.
  intros Hall Hv. induction Hall as [|[n c] rest Hc Hrest IH]; simpl.
  - constructor; [exact Hv | constructor].
  - destruct (String.eqb n name); constructor; auto.
Qed.

(** X7.  The frame [resample_signal] returns is well formed (every channel
    has one value per row of the new index) and has the channels of the
    input, by name and in the same order: resampling adds and drops none. *)
Theorem resample_signal_frame_shape (df out : Pd.DataFrame) (R : Q) :
  resample_signal df R = Ok out ->
  Pd.well_formed out /\
  map fst (Pd.columns out) = map fst (Pd.columns df).
Proof.
  intros H. destruct (resample_signal_Ok_inv df out R H) as [mag [vals [b' [Hmag [Hb ->]]]]].
  unfold Pd.binned_set in Hb.
  destruct (length vals =? length (Pd.b_index (Pd.resample_mean df (1 / R))))%nat eqn:E;
    [|discriminate].
  apply Nat.eqb_eq in E. injection Hb as <-.
  destruct (resample_mean_shape df (1 / R)) as [Hnames Hlen].
  split.
  - unfold Pd.well_formed, Pd.interpolate_linear. simpl.
    apply Forall_forall. intros c Hc. apply in_map_iff in Hc. destruct Hc as [c0 [<- Hc0]].
    simpl. rewrite fill_linear_length.
    pose proof (set_column_lengths_opt "mag_sum_acc" (map Some vals) _ _ Hlen
                  ltac:(rewrite length_map; exact E)) as Hall.
    rewrite Forall_forall in Hall. exact (Hall c0 Hc0).
  - unfold Pd.interpolate_linear. simpl. rewrite map_map. simpl.
    rewrite set_column_present; [exact Hnames|].
    apply lookup_names. rewrite Hnames. apply lookup_names.
    unfold Pd.column in Hmag. destruct (Pd.lookup _ _); [discriminate | discriminate].
Qed.

Lemma resample_signal_frame_shape_witness :
  exists out,
    resample_signal Ex.pair15 SAMPLING_FREQUENCY = Ok out /\
    Pd.well_formed out /\
    map fst (Pd.columns out) = map fst (Pd.columns Ex.pair15).
Proof.
  destruct (resample_signal Ex.pair15 SAMPLING_FREQUENCY) as [out|e] eqn:H; [|discriminate].
  exists out. split; [reflexivity|].
  exact (resample_signal_frame_shape Ex.pair15 out SAMPLING_FREQUENCY H).
Defined.



(** X10.  [resample_signal] needs two samples: on a frame whose [td] and
    magnitude channels hold fewer than two values (one sample, or none) the
    interpolant cannot be built and the call raises ValueError, for every
    rate [R > 0]. *)
Theorem resample_signal_needs_two_samples
  (df : Pd.DataFrame) (td mag : list Q) (R : Q) :
  Pd.column df "td" = Ok td ->
  Pd.column df "mag_sum_acc" = Ok mag ->
  (length td < 2)%nat -> 0 < R ->
  resample_signal df R = Raise ValueError.
Proof.
  intros Htd Hmag Hlen HR. unfold resample_signal.
  destruct (Qeq_bool R 0) eqn:E0; [apply Qeq_bool_eq in E0; lra|].
  destruct (Py.Qltb R 0) eqn:E1; [apply Qltb_lt in E1; lra|].
  destruct (Pd.rule_ok (1 / R)); [|reflexivity]. cbv beta iota delta [negb].
  rewrite Htd, Hmag. cbv beta iota zeta delta [bind].
  unfold Sp.interp1d.
  destruct (length td =? length mag)%nat; simpl; [|reflexivity].
  destruct (length td <? 2)%nat eqn:E; [reflexivity|].
  apply Nat.ltb_ge in E. lia.
Qed.

Lemma resample_signal_needs_two_samples_witness :
  Pd.column Ex.single "td" = Ok [0] /\
  (length [0] < 2)%nat /\ 0 < SAMPLING_FREQUENCY /\
  resample_signal Ex.single SAMPLING_FREQUENCY = Raise ValueError.
Proof.
  assert (Hl : (length [0] < 2)%nat) by (simpl; lia).
  assert (HR : 0 < SAMPLING_FREQUENCY) by reflexivity.
  split; [reflexivity|]. split; [exact Hl|]. split; [exact HR|].
  exact (resample_signal_needs_two_samples Ex.single [0] [1] SAMPLING_FREQUENCY
           eq_refl eq_refl Hl HR).
Defined.
(** ** Linear interpolation stays between the samples *)

Lemma segment_between (x0 y0 x1 y1 t lo hi : Q) :
  x0 < x1 -> x0 <= t -> t <= x1 ->
  lo <= y0 <= hi -> lo <= y1 <= hi ->
  lo <= Sp.segment x0 y0 x1 y1 t <= hi.
Proof.
  intros Hx H0 H1 [Hy0 Hy0'] [Hy1 Hy1']. unfold Sp.segment.
  set (lam := (t - x0) / (x1 - x0)).
  assert (Hl0 : 0 <= lam) by (unfold lam; apply Qle_shift_div_l; lra).
  assert (Hl1 : lam <= 1) by (unfold lam; apply Qle_shift_div_r; lra).
  assert (E : (y1 - y0) / (x1 - x0) * (t - x0) + y0 == y0 + lam * (y1 - y0))
    by (unfold lam; field; lra).
  rewrite E.
  assert (A1 : 0 <= lam * (y1 - lo)) by (apply Qmult_le_0_compat; lra).
  assert (A2 : 0 <= (1 - lam) * (y0 - lo)) by (apply Qmult_le_0_compat; lra).
  assert (A3 : 0 <= lam * (hi - y1)) by (apply Qmult_le_0_compat; lra).
  assert (A4 : 0 <= (1 - lam) * (hi - y0)) by (apply Qmult_le_0_compat; lra).
  split; lra.
Qed.

Lemma last_cons (x : Q) (l : list Q) : l <> [] -> Py.last (x :: l) = Py.last l.
Proof.
  intros Hl. unfold Py.last. simpl.
  destruct (rev l) as [|y r] eqn:E.
  - apply (f_equal (@rev Q)) in E. rewrite rev_involutive in E. simpl in E. congruence.
  - reflexivity.
Qed.

Lemma eval_linear_between (xs ys : list Q) (t t_last lo hi : Q) :
  length xs = length ys -> (2 <= length xs)%nat -> Spec.strictly_increasing xs ->
  Py.last xs = Ok t_last ->
  nth 0 xs 0 <= t -> t <= t_last ->
  (forall y, In y ys -> lo <= y <= hi) ->
  lo <= Sp.eval_linear xs ys t <= hi.
Proof.
  revert ys. induction xs as [|x0 xs IH]; intros ys Hlen H2 Hinc Hlast H0 H1 Hy;
    [simpl in H2; lia|].
  destruct xs as [|x1 xs2]; [simpl in H2; lia|].
  destruct ys as [|y0 [|y1 ys2]]; try (simpl in Hlen; discriminate).
  simpl in H0. destruct Hinc as [Hx01 Hinc].
  assert (Hy0 : lo <= y0 <= hi) by (apply Hy; left; reflexivity).
  assert (Hy1 : lo <= y1 <= hi) by (apply Hy; right; left; reflexivity).
  cbn [Sp.eval_linear]. destruct xs2 as [|x2 xs3].
  - assert (t_last = x1) by (unfold Py.last in Hlast; simpl in Hlast; congruence).
    subst t_last. apply segment_between; assumption.
  - destruct (Qle_bool t x1) eqn:E.
    + apply Qle_bool_iff in E. apply segment_between; assumption.
    + assert (Ht : x1 < t).
      { destruct (Qlt_le_dec x1 t) as [Hlt|Hle]; [exact Hlt|].
        apply Qle_bool_iff in Hle. congruence. }
      apply (IH (y1 :: ys2)).
      * simpl in *. lia.
      * simpl. lia.
      * exact Hinc.
      * rewrite last_cons in Hlast by discriminate. exact Hlast.
      * simpl. lra.
      * exact H1.
      * intros y Hin. apply Hy. right. exact Hin.
Qed.

Lemma resample_signal_values (df out : Pd.DataFrame) (td mag : list Q) (R : Q) :
  Spec.valid_signal df td mag -> 0 < R ->
  resample_signal df R = Ok out ->
  Pd.column out "mag_sum_acc" =
    Ok (map (Sp.eval_linear td mag) (Np.arange (nth 0 td 0) (nth 0 (rev td) 0) (1 / R))) /\
  Py.first td = Ok (nth 0 td 0) /\ Py.last td = Ok (nth 0 (rev td) 0).
Proof.
  intros [Htd [Hmag [Hlen [H2 Hinc]]]] HR Hout.
  destruct (first_last_exist td H2) as [t_first [t_last [Hfirst Hlast]]].
  assert (E0 : nth 0 td 0 = t_first).
  { destruct td; [discriminate|]. simpl in *. unfold Py.first in Hfirst. congruence. }
  assert (En : nth 0 (rev td) 0 = t_last).
  { unfold Py.last in Hlast. destruct (rev td); [discriminate|]. simpl. congruence. }
  rewrite E0, En. split; [|split; assumption].
  assert (Hstep : 0 < 1 / R) by (apply Qlt_shift_div_l; lra).
  pose proof (interp1d_sorted td mag Hlen H2 Hinc) as Hf.
  assert (Hcall : Sp.call (Sp.mkInterpolant td mag) (Np.arange t_first t_last (1 / R))
                  = Ok (map (Sp.eval_linear td mag) (Np.arange t_first t_last (1 / R)))).
  { apply (call_in_bounds (Sp.mkInterpolant td mag) t_first t_last);
      [exact Hfirst | exact Hlast |].
    intros g Hg. destruct (arange_range _ _ _ g Hstep Hg) as [H1 H3]. split; [exact H1 | lra]. }
  unfold resample_signal in Hout.
  destruct (Qeq_bool R 0) eqn:E; [apply Qeq_bool_eq in E; lra|].
  destruct (Py.Qltb R 0) eqn:E1; [apply Qltb_lt in E1; lra|].
  destruct (Pd.rule_ok (1 / R)); [|discriminate]. cbv beta iota delta [negb] in Hout.
  rewrite Htd, Hmag in Hout. cbv beta iota zeta delta [bind] in Hout.
  rewrite Hf, Hfirst, Hlast, Hcall in Hout.
  destruct (Pd.binned_set _ _ _) as [b'|e] eqn:Hb; [|discriminate].
  injection Hout as <-. exact (binned_set_column _ _ _ _ Hb).
Qed.

(** X11.  Resampling does not overshoot: for a valid signal and a rate
    [R > 0], every magnitude of the frame [resample_signal] returns lies
    between any two bounds that hold for all the magnitudes of the input
    (so between their minimum and their maximum). *)
Theorem resample_signal_no_overshoot
  (df out : Pd.DataFrame) (td mag vals : list Q) (R lo hi : Q) :
  Spec.valid_signal df td mag -> 0 < R ->
  (forall y, In y mag -> lo <= y <= hi) ->
  resample_signal df R = Ok out ->
  Pd.column out "mag_sum_acc" = Ok vals ->
  forall v, In v vals -> lo <= v <= hi.
Proof.
  intros Hv HR Hy Hout Hvals v Hin.
  destruct (resample_signal_values df out td mag R Hv HR Hout) as [Hcol [_ Hlast]].
  destruct Hv as [_ [_ [Hlen [H2 Hinc]]]].
  rewrite Hcol in Hvals. injection Hvals as <-.
  apply in_map_iff in Hin. destruct Hin as [g [<- Hg]].
  assert (Hstep : 0 < 1 / R) by (apply Qlt_shift_div_l; lra).
  destruct (arange_range _ _ _ g Hstep Hg) as [H1 H3].
  apply (eval_linear_between td mag g (nth 0 (rev td) 0) lo hi);
    try assumption. lra.
Qed.

Lemma resample_signal_no_overshoot_witness :
  Spec.valid_signal Ex.pair15 [0; 15 # 1000] [1; 2] /\
  0 < SAMPLING_FREQUENCY /\
  exists out vals,
    resample_signal Ex.pair15 SAMPLING_FREQUENCY = Ok out /\
    Pd.column out "mag_sum_acc" = Ok vals /\
    forall v, In v vals -> 1 <= v <= 2.
Proof.
  assert (Hv : Spec.valid_signal Ex.pair15 [0; 15 # 1000] [1; 2]).
  { unfold Spec.valid_signal. repeat split; simpl; try reflexivity; lia. }
  assert (HR : 0 < SAMPLING_FREQUENCY) by reflexivity.
  assert (Hy : forall y, In y [1; 2] -> 1 <= y <= 2).
  { intros y [<-|[<-|[]]]; split; discriminate. }
  split; [exact Hv|]. split; [exact HR|].
  destruct (resample_signal Ex.pair15 SAMPLING_FREQUENCY) as [out|e] eqn:H;
    [|discriminate].
  destruct (Pd.column out "mag_sum_acc") as [vals|e] eqn:Hc.
  - exists out, vals. split; [reflexivity|]. split; [exact Hc|].
    exact (resample_signal_no_overshoot Ex.pair15 out [0; 15 # 1000] [1; 2] vals
             SAMPLING_FREQUENCY 1 2 Hv HR Hy H Hc).
  - exfalso. vm_compute in H. injection H as <-. vm_compute in Hc. discriminate.
Defined.
(** ** The interpolant passes through the samples *)

Lemma increasing_above_head (x : Q) (l : list Q) (j : nat) :
  Spec.strictly_increasing (x :: l) -> (j < length l)%nat -> x < nth j l 0.
Proof.
  revert x j. induction l as [|y l IH]; intros x j Hinc Hj; [simpl in Hj; lia|].
  destruct Hinc as [Hxy Hinc]. destruct j as [|j]; [exact Hxy|].
  simpl in Hj. simpl nth. apply Qlt_trans with y; [exact Hxy|].
  apply IH; [exact Hinc | lia].
Qed.

Lemma segment_left (x0 y0 x1 y1 t : Q) :
  x0 < x1 -> t == x0 -> Sp.segment x0 y0 x1 y1 t == y0.
Proof.
  intros Hx Ht. unfold Sp.segment. rewrite Ht. field. lra.
Qed.

Lemma segment_right (x0 y0 x1 y1 t : Q) :
  x0 < x1 -> t == x1 -> Sp.segment x0 y0 x1 y1 t == y1.
Proof.
  intros Hx Ht. unfold Sp.segment. rewrite Ht. field. lra.
Qed.

Lemma eval_linear_knot (xs ys : list Q) (i : nat) (t : Q) :
  length xs = length ys -> (2 <= length xs)%nat -> Spec.strictly_increasing xs ->
  (i < length xs)%nat -> t == nth i xs 0 ->
  Sp.eval_linear xs ys t == nth i ys 0.
Proof.
  revert ys i. induction xs as [|x0 xs IH]; intros ys i Hlen H2 Hinc Hi Ht;
    [simpl in H2; lia|].
  destruct xs as [|x1 xs2]; [simpl in H2; lia|].
  destruct ys as [|y0 [|y1 ys2]]; try (simpl in Hlen; discriminate).
  pose proof Hinc as [Hx01 Hinc'].
  cbn [Sp.eval_linear]. destruct xs2 as [|x2 xs3].
  - destruct i as [|[|i]]; [| |simpl in Hi; lia].
    + apply segment_left; assumption.
    + apply segment_right; assumption.
  - destruct i as [|[|i]].
    + simpl in Ht.
      assert (E : Qle_bool t x1 = true) by (apply Qle_bool_iff; lra).
      rewrite E. apply segment_left; assumption.
    + simpl in Ht.
      assert (E : Qle_bool t x1 = true) by (apply Qle_bool_iff; lra).
      rewrite E. apply segment_right; assumption.
    + assert (Hgt : x1 < t).
      { rewrite Ht. change (nth (S (S i)) (x0 :: x1 :: x2 :: xs3) 0)
          with (nth i (x2 :: xs3) 0).
        apply increasing_above_head; [exact Hinc'|]. simpl in Hi. simpl. lia. }
      destruct (Qle_bool t x1) eqn:E; [apply Qle_bool_iff in E; lra|].
      change (nth (S (S i)) (y0 :: y1 :: ys2) 0) with (nth (S i) (y1 :: ys2) 0).
      apply (IH (y1 :: ys2) (S i)).
      * simpl in *. lia.
      * simpl. lia.
      * exact Hinc'.
      * simpl in *. lia.
      * exact Ht.
Qed.

(** X12.  Resampling keeps the samples it lands on: for a valid signal and
    a rate [R > 0], wherever point [k] of the grid, [first_ts + k/R], is the
    timestamp of input sample [i], magnitude [k] of the returned frame is
    the magnitude of sample [i]; in particular the first magnitude is that
    of the first sample. *)
Theorem resample_signal_keeps_samples
  (df out : Pd.DataFrame) (td mag vals : list Q) (R : Q) :
  Spec.valid_signal df td mag -> 0 < R ->
  resample_signal df R = Ok out ->
  Pd.column out "mag_sum_acc" = Ok vals ->
  (forall k i v,
     nth_error vals k = Some v -> (i < length td)%nat ->
     nth 0 td 0 + inject_Z (Z.of_nat k) * (1 / R) == nth i td 0 ->
     v == nth i mag 0) /\
  exists v rest, vals = v :: rest /\ v == nth 0 mag 0.
Proof.
  intros Hv HR Hout Hvals.
  destruct (resample_signal_values df out td mag R Hv HR Hout) as [Hcol [Hfirst Hlast]].
  destruct Hv as [_ [_ [Hlen [H2 Hinc]]]].
  rewrite Hcol in Hvals. injection Hvals as <-.
  assert (Hall : forall k i v,
     nth_error (map (Sp.eval_linear td mag)
                  (Np.arange (nth 0 td 0) (nth 0 (rev td) 0) (1 / R))) k = Some v ->
     (i < length td)%nat ->
     nth 0 td 0 + inject_Z (Z.of_nat k) * (1 / R) == nth i td 0 ->
     v == nth i mag 0).
  { intros k i v Hk Hi Ht.
    rewrite nth_error_map in Hk.
    destruct (nth_error (Np.arange _ _ _) k) as [g|] eqn:Hg; [|discriminate].
    injection Hk as <-. unfold Np.arange in Hg.
    apply nth_error_map_seq in Hg. destruct Hg as [_ ->].
    apply eval_linear_knot; assumption. }
  split; [exact Hall|].
  assert (Hlt : nth 0 td 0 < nth 0 (rev td) 0).
  { destruct td as [|x0 [|x1 l]]; try (simpl in H2; lia).
    assert (E : nth 0 (rev (x0 :: x1 :: l)) 0 = nth (length l) (x1 :: l) 0).
    { rewrite rev_nth by (simpl; lia).
      replace (length (x0 :: x1 :: l) - 1 - 0)%nat with (S (length l)) by (simpl; lia).
      reflexivity. }
    rewrite E. apply increasing_above_head; [exact Hinc | simpl; lia]. }
  assert (Hn : (0 < Qceiling ((nth 0 (rev td) 0 - nth 0 td 0) / (1 / R))%Q)%Z).
  { assert (Hpos : 0 < (nth 0 (rev td) 0 - nth 0 td 0) / (1 / R)).
    { apply Qlt_shift_div_l; [apply Qlt_shift_div_l; lra | lra]. }
    pose proof (Qle_ceiling ((nth 0 (rev td) 0 - nth 0 td 0) / (1 / R))) as Hc.
    assert (Hz : inject_Z 0 < inject_Z (Qceiling ((nth 0 (rev td) 0 - nth 0 td 0) / (1 / R))))
      by (change (inject_Z 0) with 0; lra).
    rewrite <- Zlt_Qlt in Hz. exact Hz. }
  destruct (map (Sp.eval_linear td mag) _) as [|v rest] eqn:E.
  - apply (f_equal (@length Q)) in E. rewrite length_map in E.
    unfold Np.arange in E. rewrite length_map, length_seq in E. simpl in E. lia.
  - exists v, rest. split; [reflexivity|].
    apply (Hall 0%nat 0%nat v); [reflexivity | lia |].
    simpl. ring.
Qed.

Lemma resample_signal_keeps_samples_witness :
  Spec.valid_signal Ex.pair15 [0; 15 # 1000] [1; 2] /\
  0 < SAMPLING_FREQUENCY /\
  exists out vals v rest,
    resample_signal Ex.pair15 SAMPLING_FREQUENCY = Ok out /\
    Pd.column out "mag_sum_acc" = Ok vals /\
    vals = v :: rest /\ v == 1.
Proof.
  assert (Hv : Spec.valid_signal Ex.pair15 [0; 15 # 1000] [1; 2]).
  { unfold Spec.valid_signal. repeat split; simpl; try reflexivity; lia. }
  assert (HR : 0 < SAMPLING_FREQUENCY) by reflexivity.
  split; [exact Hv|]. split; [exact HR|].
  destruct (resample_signal Ex.pair15 SAMPLING_FREQUENCY) as [out|e] eqn:H;
    [|discriminate].
  destruct (Pd.column out "mag_sum_acc") as [vals|e] eqn:Hc.
  - destruct (resample_signal_keeps_samples Ex.pair15 out [0; 15 # 1000] [1; 2] vals
                SAMPLING_FREQUENCY Hv HR H Hc) as [_ [v [rest [E1 E2]]]].
    exists out, vals, v, rest. split; [reflexivity|]. split; [exact Hc|].
    split; [exact E1 | exact E2].
  - exfalso. vm_compute in H. injection H as <-. vm_compute in Hc. discriminate.
Defined.
(** ** Short recordings on the transform path *)

Lemma fold_min_In (l : list Q) (a : Q) : In (fold_left Pd.Qmin l a) (a :: l).
Proof.
  revert a. induction l as [|b l IH]; intros a; simpl; [left; reflexivity|].
  destruct (IH (Pd.Qmin a b)) as [H|H]; [|right; right; exact H].
  unfold Pd.Qmin in H at 1. destruct (Py.Qltb b a); [right; left | left]; exact H.
Qed.

Lemma fold_max_In (l : list Q) (a : Q) : In (fold_left Pd.Qmax l a) (a :: l).
Proof.
  revert a. induction l as [|b l IH]; intros a; simpl; [left; reflexivity|].
  destruct (IH (Pd.Qmax a b)) as [H|H]; [|right; right; exact H].
  unfold Pd.Qmax in H at 1. destruct (Py.Qltb a b); [right; left | left]; exact H.
Qed.

(** A frame whose index times span at most [m] steps is binned into at most
    [m + 1] rows. *)
Lemma resample_mean_rows (df : Pd.DataFrame) (w : Q) (m : nat) :
  0 < w ->
  (forall t u, In t (Pd.index df) -> In u (Pd.index df) ->
               t - u <= inject_Z (Z.of_nat m) * w) ->
  (length (Pd.b_index (Pd.resample_mean df w)) <= S m)%nat.
Proof.
  intros Hw Hspan. unfold Pd.resample_mean.
  destruct (Pd.index df) as [|t0 ts] eqn:Eidx; cbn [Pd.b_index length]; [lia|].
  rewrite length_map, length_seq.
  remember (fold_left Pd.Qmin ts t0) as lo eqn:Elo.
  remember (fold_left Pd.Qmax ts t0) as hi eqn:Ehi.
  assert (Hlo : In lo (t0 :: ts)) by (subst lo; apply fold_min_In).
  assert (Hhi : In hi (t0 :: ts)) by (subst hi; apply fold_max_In).
  specialize (Hspan hi lo Hhi Hlo).
  remember (inject_Z (Qfloor (lo / w)) * w) as edge0 eqn:Ee.
  assert (Hedge : lo - edge0 < w).
  { pose proof (Qlt_floor (lo / w)) as Hf.
    rewrite inject_Z_plus in Hf. change (inject_Z 1) with 1 in Hf.
    assert (E : lo == lo / w * w) by (field; lra).
    assert (Hm : lo / w * w < (inject_Z (Qfloor (lo / w)) + 1) * w)
      by (apply Qmult_lt_compat_r; assumption).
    subst edge0. lra. }
  assert (Hq : (hi - edge0) / w < inject_Z (Z.of_nat m + 1)).
  { apply Qlt_shift_div_r; [exact Hw|].
    rewrite inject_Z_plus. change (inject_Z 1) with 1. lra. }
  assert (Hfl : (Qfloor ((hi - edge0) / w) < Z.of_nat m + 1)%Z).
  { rewrite Zlt_Qlt. apply Qle_lt_trans with ((hi - edge0) / w);
      [apply Qfloor_le | exact Hq]. }
  lia.
Qed.

Lemma resample_signal_index (df out : Pd.DataFrame) (R : Q) :
  resample_signal df R = Ok out ->
  Pd.index out = Pd.b_index (Pd.resample_mean df (1 / R)).
Proof.
  intros H. destruct (resample_signal_Ok_inv df out R H) as [mag [vals [b' [_ [Hb ->]]]]].
  unfold Pd.binned_set in Hb. destruct (_ =? _)%nat; [|discriminate].
  injection Hb as <-. reflexivity.
Qed.

Lemma resample_signal_shape (df out : Pd.DataFrame) (R : Q) :
  resample_signal df R = Ok out ->
  Pd.well_formed out /\ Pd.lookup "td" (Pd.columns out) <> None.
Proof.
  intros H.
  assert (Htd : Pd.lookup "td" (Pd.columns df) <> None).
  { unfold resample_signal in H.
    destruct (Qeq_bool R 0); [discriminate|]. destruct (Py.Qltb R 0); [discriminate|].
    destruct (Pd.rule_ok (1 / R)); [|discriminate]. cbv beta iota delta [negb] in H.
    apply bind_Ok_inv in H. destruct H as [td [Htd _]].
    unfold Pd.column in Htd. destruct (Pd.lookup _ _); [discriminate | discriminate]. }
  destruct (resample_signal_Ok_inv df out R H) as [mag [vals [b' [Hmag [Hb ->]]]]].
  unfold Pd.binned_set in Hb.
  destruct (length vals =? length (Pd.b_index (Pd.resample_mean df (1 / R))))%nat eqn:E;
    [|discriminate].
  apply Nat.eqb_eq in E. injection Hb as <-.
  destruct (resample_mean_shape df (1 / R)) as [Hnames Hlen].
  split.
  - unfold Pd.well_formed, Pd.interpolate_linear. simpl.
    apply Forall_forall. intros c Hc. apply in_map_iff in Hc. destruct Hc as [c0 [<- Hc0]].
    simpl. rewrite fill_linear_length.
    pose proof (set_column_lengths_opt "mag_sum_acc" (map Some vals) _ _ Hlen
                  ltac:(rewrite length_map; exact E)) as Hall.
    rewrite Forall_forall in Hall. exact (Hall c0 Hc0).
  - apply lookup_names. unfold Pd.interpolate_linear. simpl. rewrite map_map. simpl.
    rewrite set_column_present.
    + rewrite Hnames. apply lookup_names. exact Htd.
    + apply lookup_names. rewrite Hnames. apply lookup_names.
      unfold Pd.column in Hmag. destruct (Pd.lookup "mag_sum_acc" (Pd.columns df)); [discriminate | discriminate Hmag].
Qed.

Lemma filter_signal_Ok_inv (lib : Library) (df out : Pd.DataFrame) (cutoff : Q)
  (order : nat) :
  filter_signal lib df cutoff order = Ok out ->
  exists filtered,
    length filtered = length (Pd.index df) /\
    out = Pd.mkDataFrame (Pd.index df)
            (Pd.set_column "filtered_signal" filtered (Pd.columns df)).
Proof.
  unfold filter_signal. intros H.
  apply bind_Ok_inv in H. destruct H as [[b a] [_ H]].
  apply bind_Ok_inv in H. destruct H as [mag [_ H]].
  apply bind_Ok_inv in H. destruct H as [fs [_ H]].
  unfold Pd.setitem in H.
  destruct (length fs =? length (Pd.index df))%nat eqn:E; [|discriminate].
  apply Nat.eqb_eq in E. injection H as <-. exists fs. split; [exact E | reflexivity].
Qed.

Lemma process_body_raises (lib : Library) (self : TremorProcessor) (df : Pd.DataFrame)
  (method : string) (e : exn) :
  process_body lib df method self = (Raise e, self) ->
  self_after (process lib self df method) = self /\
  (ended (process lib self df method) = Raise AttributeError \/
   error_log (process lib self df method) <> []).
Proof.
  intros H. unfold process. rewrite H.
  destruct e; simpl; split; try reflexivity;
    try (right; discriminate); left; reflexivity.
Qed.

(** X13.  A recording too short for the window never yields a result on
    the transform path.  When the index times of the input span at most
    2.54 s, the resampled frame has fewer than 256 rows, so once the first
    two stages have returned [fft_signal] raises ValueError and
    AttributeError leaves [process]; whatever stage fails, [process] with
    method ['fft'] leaves amplitude and frequency as they were and either
    raises AttributeError or writes to the error log. *)
Theorem process_fft_short_recording
  (lib : Library) (self : TremorProcessor) (df : Pd.DataFrame) :
  (forall t u, In t (Pd.index df) -> In u (Pd.index df) -> t - u <= 254 # 100) ->
  self_after (process lib self df "fft") = self /\
  (ended (process lib self df "fft") = Raise AttributeError \/
   error_log (process lib self df "fft") <> []) /\
  (forall r f,
     resample_signal df SAMPLING_FREQUENCY = Ok r ->
     filter_signal lib r CUTOFF_FREQUENCY_HIGH FILTER_ORDER = Ok f ->
     (length (Pd.index r) < WINDOW)%nat /\
     fft_signal lib f WINDOW = Raise ValueError /\
     process lib self df "fft" = mkRun (Raise AttributeError) self []).
Proof.
  intros Hspan.
  assert (Hstage : forall r f,
     resample_signal df SAMPLING_FREQUENCY = Ok r ->
     filter_signal lib r CUTOFF_FREQUENCY_HIGH FILTER_ORDER = Ok f ->
     (length (Pd.index r) < WINDOW)%nat /\
     fft_signal lib f WINDOW = Raise ValueError).
  { intros r f Hr Hf.
    assert (Hrows : (length (Pd.index r) < WINDOW)%nat).
    { rewrite (resample_signal_index df r _ Hr).
      assert (Hw : 0 < 1 / SAMPLING_FREQUENCY) by reflexivity.
      pose proof (resample_mean_rows df (1 / SAMPLING_FREQUENCY) 254 Hw) as Hm.
      unfold WINDOW. apply Nat.lt_succ_r. apply Hm.
      intros t u Ht Hu. specialize (Hspan t u Ht Hu).
      apply Qle_trans with (254 # 100); [exact Hspan | discriminate]. }
    split; [exact Hrows|].
    destruct (resample_signal_shape df r _ Hr) as [Hwf Htd].
    destruct (filter_signal_Ok_inv lib r f _ _ Hf) as [fs [Hlen ->]].
    destruct (Pd.lookup "td" (Pd.columns r)) as [td|] eqn:Etd; [|congruence].
    apply (fft_signal_short lib _ WINDOW fs td).
    - unfold Pd.well_formed. simpl. apply set_column_lengths; [exact Hwf | exact Hlen].
    - unfold Pd.column. simpl. rewrite lookup_set_column_same. reflexivity.
    - unfold Pd.column. simpl. rewrite lookup_set_column_other by discriminate.
      rewrite Etd. reflexivity.
    - rewrite Hlen. exact Hrows. }
  assert (Hbody : exists e, process_body lib df "fft" self = (Raise e, self) /\
            forall r f, resample_signal df SAMPLING_FREQUENCY = Ok r ->
              filter_signal lib r CUTOFF_FREQUENCY_HIGH FILTER_ORDER = Ok f ->
              e = ValueError).
  { destruct (resample_signal df SAMPLING_FREQUENCY) as [r|e] eqn:Hr.
    - destruct (filter_signal lib r CUTOFF_FREQUENCY_HIGH FILTER_ORDER) as [f|e] eqn:Hf.
      + exists ValueError. split; [|reflexivity].
        apply stage_raises_body. right. right. exists r, f.
        destruct (Hstage r f eq_refl Hf) as [_ Hfft]. auto.
      + exists e. split; [|intros r' f' Hr' Hf'; injection Hr' as <-; congruence].
        apply stage_raises_body. right. left. exists r. auto.
    - exists e. split; [|intros r' f' Hr'; discriminate].
      apply stage_raises_body. left. exact Hr. }
  destruct Hbody as [e [Hbody He]].
  destruct (process_body_raises lib self df "fft" e Hbody) as [H1 H2].
  split; [exact H1|]. split; [exact H2|].
  intros r f Hr Hf. destruct (Hstage r f Hr Hf) as [Hrows Hfft].
  split; [exact Hrows|]. split; [exact Hfft|].
  rewrite (He r f Hr Hf) in Hbody.
  unfold process. rewrite Hbody. reflexivity.
Qed.

Lemma process_fft_short_recording_witness :
  (forall t u, In t (Pd.index Ex.pair15) -> In u (Pd.index Ex.pair15) ->
               t - u <= 254 # 100) /\
  process Ex.lib init Ex.pair15 "fft" = mkRun (Raise AttributeError) init [].
Proof.
  assert (Hspan : forall t u, In t (Pd.index Ex.pair15) -> In u (Pd.index Ex.pair15) ->
                              t - u <= 254 # 100).
  { intros t u [<-|[<-|[]]] [<-|[<-|[]]]; discriminate. }
  split; [exact Hspan|].
  destruct (process_fft_short_recording Ex.lib init Ex.pair15 Hspan) as [_ [_ H]].
  destruct (resample_signal Ex.pair15 SAMPLING_FREQUENCY) as [r|e] eqn:Hr; [|discriminate].
  destruct (filter_signal Ex.lib r CUTOFF_FREQUENCY_HIGH FILTER_ORDER) as [f|e] eqn:Hf.
  - exact (proj2 (proj2 (H r f eq_refl Hf))).
  - reflexivity.
Defined.
(** ** The timestamps of the resampled frame *)






